(** * rag-demo: indexing and answer-composition pipeline

    A shallow embedding of [assistant/__init__.py] and
    [assistant/cli/create_db.py], with the properties of the content
    identity, the retriever configuration, the answer composer and the
    incremental indexer.

    Part I holds the embedding (definitions only), Part II the proofs. *)

From Stdlib Require Import ZArith NArith List Lia Bool.
From Stdlib Require Import Strings.String Strings.Ascii.
From Stdlib Require Import Numbers.DecimalString.
From stdpp Require Import base list sorting gmap.

Local Open Scope Z_scope.

(* ================================================================= *)
(** * Part I: the embedding *)
(* ================================================================= *)

(** ** Python [str] *)

(** A Python [str] is a sequence of Unicode code points. *)
Abbreviation pystr := (list N).

(** String literals of the source: every character of a literal used
    below is ASCII, so its byte is its code point. *)
Definition py (s : string) : pystr :=
  map N_of_ascii (list_ascii_of_string s).

(** [sep.join(parts)]. *)
Fixpoint str_join (sep : pystr) (parts : list pystr) : pystr :=
  match parts with
  | [] => []
  | [p] => p
  | p :: rest => p ++ sep ++ str_join sep rest
  end.



(** [a <= b] on [str]: code point by code point, a proper prefix first. *)
Fixpoint str_leb (a b : pystr) : bool :=
  match a, b with
  | [], _ => true
  | _ :: _, [] => false
  | x :: a', y :: b' =>
      match (x ?= y)%N with
      | Lt => true
      | Gt => false
      | Eq => str_leb a' b'
      end
  end.

Definition str_le : relation pystr := fun a b => str_leb a b = true.

Global Instance str_le_dec : RelDecision str_le.
Proof. intros a b. unfold str_le. apply bool_eq_dec. Defined.

(** [repr(n)] of an [int]: decimal digits, a leading minus sign. *)
Definition int_repr (n : Z) : pystr :=
  py (NilZero.string_of_int (Z.to_int n)).

(** [format(n, '04x')] for [0 <= n < 0x10000], and a single hex digit. *)
Definition hex_digit (n : Z) : N :=
  Z.to_N (if n <? 10 then 48 + n else 87 + n).

Definition hex4 (n : Z) : pystr :=
  map (fun i => hex_digit (Z.land (Z.shiftr n (4 * i)) 15)) [3; 2; 1; 0].

(** The digits of a lower-case hexadecimal numeral. *)
Definition is_hex (c : N) : bool :=
  ((48 <=? c) && (c <=? 57) || (97 <=? c) && (c <=? 102))%N.

(** The printable ASCII characters, space to tilde. *)
Definition printable (c : N) : bool := ((32 <=? c) && (c <=? 126))%N.

(** [str.encode()]: UTF-8. *)
Definition utf8_char (c : Z) : list Z :=
  if c <? 128 then [c]
  else if c <? 2048 then
    [Z.lor 192 (Z.shiftr c 6); Z.lor 128 (Z.land c 63)]
  else if c <? 65536 then
    [Z.lor 224 (Z.shiftr c 12);
     Z.lor 128 (Z.land (Z.shiftr c 6) 63);
     Z.lor 128 (Z.land c 63)]
  else
    [Z.lor 240 (Z.shiftr c 18);
     Z.lor 128 (Z.land (Z.shiftr c 12) 63);
     Z.lor 128 (Z.land (Z.shiftr c 6) 63);
     Z.lor 128 (Z.land c 63)].

Definition encode (s : pystr) : list Z :=
  flat_map (fun c => utf8_char (Z.of_N c)) s.

(** ** [hashlib.sha1] *)

Module Sha1.

Definition add32 (a b : Z) : Z := (a + b) mod 2 ^ 32.

Definition rotl32 (n x : Z) : Z :=
  Z.lor (Z.land (Z.shiftl x n) 0xFFFFFFFF) (Z.shiftr x (32 - n)).

Definition not32 (x : Z) : Z := Z.lxor x 0xFFFFFFFF.

(** Big-endian 64-bit length field. *)
Definition be64 (n : Z) : list Z :=
  map (fun i => Z.land (Z.shiftr n (8 * i)) 255) [7; 6; 5; 4; 3; 2; 1; 0].

(** Message padding: a one bit, zeros up to 56 mod 64, the bit length. *)
Definition pad (msg : list Z) : list Z :=
  let l := Z.of_nat (length msg) in
  msg ++ [0x80] ++ repeat 0 (Z.to_nat ((55 - l) mod 64)) ++ be64 (8 * l).

Fixpoint words (bs : list Z) : list Z :=
  match bs with
  | b0 :: b1 :: b2 :: b3 :: rest =>
      Z.lor (Z.shiftl b0 24)
        (Z.lor (Z.shiftl b1 16) (Z.lor (Z.shiftl b2 8) b3))
      :: words rest
  | _ => []
  end.

Fixpoint blocks (fuel : nat) (ws : list Z) : list (list Z) :=
  match fuel, ws with
  | O, _ | _, [] => []
  | S fuel', _ => firstn 16 ws :: blocks fuel' (skipn 16 ws)
  end.

(** Message schedule: 16 words extended to 80. *)
Fixpoint extend (n : nat) (w : list Z) : list Z :=
  match n with
  | O => w
  | S n' =>
      let t := length w in
      let at_ i := nth (t - i) w 0 in
      extend n'
        (w ++ [rotl32 1 (Z.lxor (Z.lxor (at_ 3%nat) (at_ 8%nat))
                           (Z.lxor (at_ 14%nat) (at_ 16%nat)))])
  end.

Definition state : Type := Z * Z * Z * Z * Z.

Definition round (w : list Z) (s : state) (t : nat) : state :=
  let '(a, b, c, d, e) := s in
  let '(f, k) :=
    if (t <? 20)%nat then
      (Z.lor (Z.land b c) (Z.land (not32 b) d), 0x5A827999)
    else if (t <? 40)%nat then
      (Z.lxor (Z.lxor b c) d, 0x6ED9EBA1)
    else if (t <? 60)%nat then
      (Z.lor (Z.lor (Z.land b c) (Z.land b d)) (Z.land c d), 0x8F1BBCDC)
    else
      (Z.lxor (Z.lxor b c) d, 0xCA62C1D6) in
  let temp :=
    add32 (add32 (add32 (add32 (rotl32 5 a) f) e) k) (nth t w 0) in
  (temp, a, rotl32 30 b, c, d).

Definition compress (h : state) (block : list Z) : state :=
  let w := extend 64 block in
  let '(a, b, c, d, e) := fold_left (round w) (seq 0 80) h in
  let '(h0, h1, h2, h3, h4) := h in
  (add32 h0 a, add32 h1 b, add32 h2 c, add32 h3 d, add32 h4 e).

Definition init : state :=
  (0x67452301, 0xEFCDAB89, 0x98BADCFE, 0x10325476, 0xC3D2E1F0).

Definition digest (msg : list Z) : state :=
  let ws := words (pad msg) in
  fold_left compress (blocks (length ws) ws) init.

Definition hex8 (w : Z) : pystr :=
  hex4 (Z.shiftr w 16) ++ hex4 (Z.land w 0xFFFF).

(** [hashlib.sha1(msg).hexdigest()]. *)
Definition hexdigest (msg : list Z) : pystr :=
  let '(h0, h1, h2, h3, h4) := digest msg in
  hex8 h0 ++ hex8 h1 ++ hex8 h2 ++ hex8 h3 ++ hex8 h4.

End Sha1.

(** ** Exceptions *)

Inductive exn :=
| KeyError (key : pystr)
| TypeError
| AssertionError
| RuntimeError (msg : pystr).

Inductive result (A : Type) :=
| Ok (a : A)
| Raise (e : exn).
Arguments Ok {A} a.
Arguments Raise {A} e.

Definition rbind {A B} (r : result A) (f : A -> result B) : result B :=
  match r with
  | Ok a => f a
  | Raise e => Raise e
  end.

(** A comprehension [[f(x) for x in xs]] whose body may raise. *)
Fixpoint rmap {A B} (f : A -> result B) (xs : list A) : result (list B) :=
  match xs with
  | [] => Ok []
  | x :: xs' =>
      rbind (f x) (fun y => rbind (rmap f xs') (fun ys => Ok (y :: ys)))
  end.

(** A comprehension [[x for x in xs if p(x)]] whose condition may raise. *)
Fixpoint rfilter {A} (p : A -> result bool) (xs : list A) : result (list A) :=
  match xs with
  | [] => Ok []
  | x :: xs' =>
      rbind (p x) (fun b =>
      rbind (rfilter p xs') (fun ys => Ok (if b then x :: ys else ys)))
  end.

(** ** Python [dict] with [str] keys *)

(** Insertion-ordered, one entry per key. *)
Abbreviation pydict V := (list (pystr * V)).

Fixpoint dict_get {V} (k : pystr) (d : pydict V) : option V :=
  match d with
  | [] => None
  | (k', v) :: d' => if decide (k = k') then Some v else dict_get k d'
  end.

(** [d[k] = v]: a present key keeps its position, a new key goes last. *)
Fixpoint dict_set {V} (k : pystr) (v : V) (d : pydict V) : pydict V :=
  match d with
  | [] => [(k, v)]
  | (k', v') :: d' =>
      if decide (k = k') then (k, v) :: d' else (k', v') :: dict_set k v d'
  end.

(** The invariant of every [dict]: no key occurs twice. *)
Definition dict_wf {V} (d : pydict V) : Prop := NoDup (map fst d).

(** Metadata values: the scalars the loaders and the splitter produce
    ([str] for [source] and [title], [int] for [start_index]) together
    with [bool] and [None]. *)
Inductive scalar :=
| SStr (s : pystr)
| SInt (n : Z)
| SBool (b : bool)
| SNone.

Global Instance scalar_eq_dec : EqDecision scalar.
Proof. solve_decision. Defined.

(** [d1 == d2] on metadata: the same keys with identical values, in
    whatever order they were inserted. *)
Definition dict_eqb (d1 d2 : pydict scalar) : bool :=
  (length d1 =? length d2)%nat &&
  forallb (fun kv => bool_decide (dict_get kv.1 d2 = Some kv.2)) d1.

(** [str(v)], as an f-string renders a value. *)
Definition py_str (v : scalar) : pystr :=
  match v with
  | SStr s => s
  | SInt n => int_repr n
  | SBool true => py "True"
  | SBool false => py "False"
  | SNone => py "None"
  end.

(** ** [json.dumps(..., sort_keys=True)] *)

Module Json.

(** One character of [json.encoder.py_encode_basestring_ascii]: the
    quote and the backslash are escaped, the printable ASCII range is
    kept, anything else becomes a short escape or [\uXXXX], with a
    surrogate pair above the basic plane. *)
Definition escape_char (c : N) : pystr :=
  let n := Z.of_N c in
  if n =? 34 then [92; 34]%N
  else if n =? 92 then [92; 92]%N
  else if (32 <=? n) && (n <=? 126) then [c]
  else if n =? 8 then py "\b"
  else if n =? 12 then py "\f"
  else if n =? 10 then py "\n"
  else if n =? 13 then py "\r"
  else if n =? 9 then py "\t"
  else if n <? 65536 then py "\u" ++ hex4 n
  else
    let m := n - 65536 in
    let s1 := Z.lor 0xd800 (Z.land (Z.shiftr m 10) 0x3ff) in
    let s2 := Z.lor 0xdc00 (Z.land m 0x3ff) in
    py "\u" ++ hex4 s1 ++ py "\u" ++ hex4 s2.

Definition encode_str (s : pystr) : pystr :=
  [34%N] ++ flat_map escape_char s ++ [34%N].

Definition encode_scalar (v : scalar) : pystr :=
  match v with
  | SStr s => encode_str s
  | SInt n => int_repr n
  | SBool true => py "true"
  | SBool false => py "false"
  | SNone => py "null"
  end.

(** The order of [sorted(dct.items())]: keys are unique, so the key
    alone decides. *)
Definition item_le : relation (pystr * scalar) :=
  fun p q => str_le p.1 q.1.

Global Instance item_le_dec : RelDecision item_le.
Proof. intros p q. unfold item_le. apply _. Defined.

Definition encode_item (kv : pystr * scalar) : pystr :=
  encode_str kv.1 ++ py ": " ++ encode_scalar kv.2.

(** [json.dumps(d, sort_keys=True)] with the default separators. *)
Definition dumps_sorted (d : pydict scalar) : pystr :=
  py "{" ++ str_join (py ", ") (map encode_item (merge_sort item_le d))
    ++ py "}".

End Json.

(** The code point a surrogate pair stands for in UTF-16. *)
Definition surrogate_pair_code_point (hi lo : N) : N :=
  (65536 + (hi - 55296) * 1024 + (lo - 56320))%N.

(** Two items with the same key and the same serialized value. *)
Definition same_item (p q : pystr * scalar) : Prop :=
  p.1 = q.1 /\ Json.encode_scalar p.2 = Json.encode_scalar q.2.

(** The same, for the stacks of runs the merge sort works on. *)
Definition same_stack : relation (list (option (pydict scalar))) :=
  Forall2 (option_Forall2 (Forall2 same_item)).

(** ** Documents and the content identity *)

Record Document := mkDocument {
  page_content : pystr;
  metadata : pydict scalar
}.

(** [stable_hash]: SHA-1 over the key-sorted JSON of the metadata. *)
Definition stable_hash (doc : Document) : pystr :=
  Sha1.hexdigest (encode (Json.dumps_sorted (metadata doc))).

(** [doc.metadata["source"]]. *)
Definition metadata_source (m : pydict scalar) : result scalar :=
  match dict_get (py "source") m with
  | Some v => Ok v
  | None => Raise (KeyError (py "source"))
  end.

Definition format_doc (doc : Document) : result pystr :=
  rbind (metadata_source (metadata doc)) (fun src =>
  Ok (py "Content: " ++ page_content doc ++ [10%N] ++ py "Source: "
        ++ py_str src)).

Definition format_docs (docs : list Document) : result pystr :=
  rbind
    (rmap (fun doc =>
       rbind (metadata_source (metadata doc)) (fun src =>
       Ok (py "Content: " ++ page_content doc ++ [10%N] ++ py "Source: "
             ++ py_str src)))
       docs)
    (fun blocks => Ok (str_join [10%N; 10%N] blocks)).


(** ** The model factories: [get_embeddings_model], [get_chat_model] *)

(** What the factories read from the process environment:
    [os.getenv("OPENAI_API_TYPE")] and whether [OPENAI_API_KEY] is
    set. *)
Record Environ := mkEnviron {
  OPENAI_API_TYPE : option pystr;
  has_OPENAI_API_KEY : bool
}.

(** The embeddings objects the factory constructs, with the arguments
    it passes. *)
Inductive EmbeddingsModel :=
| AzureOpenAIEmbeddings (azure_deployment : pystr)
| OpenAIEmbeddings (model : pystr)
| HuggingFaceEmbeddings (model_name : pystr)
    (encode_kwargs : pydict bool) (model_kwargs : pydict pystr).

(** [model_type] is a [str] at run time, whatever its annotation. *)
Definition get_embeddings_model (environ : Environ) (name : pystr)
    (model_type : option pystr) : result EmbeddingsModel :=
  let model_type :=
    match model_type with
    | Some t => t
    | None =>
        if bool_decide (OPENAI_API_TYPE environ = Some (py "azure"))
        then py "azure"
        else if has_OPENAI_API_KEY environ then py "openai"
        else py "hf"
    end in
  if bool_decide (model_type = py "azure") then
    Ok (AzureOpenAIEmbeddings name)
  else if bool_decide (model_type = py "openai") then
    Ok (OpenAIEmbeddings name)
  else if bool_decide (model_type = py "hf") then
    let encode_kwargs := [(py "normalize_embeddings", true)] in
    let mode_kwargs := [(py "device", py "cuda")] in
    Ok (HuggingFaceEmbeddings name encode_kwargs mode_kwargs)
  else Raise TypeError.

(** Float literals of the source are kept as written. *)
Definition float_literal : Type := pystr.

(** The text-generation pipeline of the local model, with the
    settings of the loader and of the pipeline. *)
Record HFPipeline := mkHFPipeline {
  task : pystr;
  pretrained : pystr;
  load_in_8bit : bool;
  torch_dtype : pystr;
  device_map : pystr;
  llm_int8_enable_fp32_cpu_offload : bool;
  max_length : Z;
  pipe_temperature : float_literal;
  top_p : float_literal;
  repetition_penalty : float_literal
}.

Inductive ChatModel :=
| AzureChatOpenAI (azure_deployment : pystr) (temperature : float_literal)
| ChatOpenAI (model : pystr) (temperature : float_literal)
| HuggingFacePipeline (pipeline : HFPipeline).

Definition get_chat_model (environ : Environ) (name : pystr)
    (model_type : option pystr) : result ChatModel :=
  let model_type :=
    match model_type with
    | Some t => t
    | None =>
        if bool_decide (OPENAI_API_TYPE environ = Some (py "azure"))
        then py "azure"
        else if has_OPENAI_API_KEY environ then py "openai"
        else py "hf"
    end in
  if bool_decide (model_type = py "azure") then
    Ok (AzureChatOpenAI name (py "0.0"))
  else if bool_decide (model_type = py "openai") then
    Ok (ChatOpenAI name (py "0.0"))
  else if bool_decide (model_type = py "hf") then
    let pipe :=
      mkHFPipeline (py "text-generation") name true (py "float16") (py "auto")
        true 256 (py "0.0") (py "0.95") (py "1.2") in
    Ok (HuggingFacePipeline pipe)
  else Raise TypeError.


(** The provider a constructed model belongs to. *)
Inductive Provider := Azure | OpenAI | HuggingFace.

Definition embeddings_provider (m : EmbeddingsModel) : Provider :=
  match m with
  | AzureOpenAIEmbeddings _ => Azure
  | OpenAIEmbeddings _ => OpenAI
  | HuggingFaceEmbeddings _ _ _ => HuggingFace
  end.

Definition chat_provider (m : ChatModel) : Provider :=
  match m with
  | AzureChatOpenAI _ _ => Azure
  | ChatOpenAI _ _ => OpenAI
  | HuggingFacePipeline _ => HuggingFace
  end.

Definition chat_temperature (m : ChatModel) : float_literal :=
  match m with
  | AzureChatOpenAI _ t => t
  | ChatOpenAI _ t => t
  | HuggingFacePipeline p => pipe_temperature p
  end.

(** ** The vector store factory: [get_chromadb] *)

Module Factory.

(** The arguments [Chroma(...)] is constructed with. *)
Record ChromaArgs (E F : Type) := mkChromaArgs {
  collection_name : pystr;
  embedding_function : E;
  persist_directory : pystr;
  collection_metadata : option (pydict pystr);
  relevance_score_fn : option F
}.
Arguments mkChromaArgs {E F}.
Arguments collection_name {E F}.
Arguments embedding_function {E F}.
Arguments persist_directory {E F}.
Arguments collection_metadata {E F}.
Arguments relevance_score_fn {E F}.

(** [get_args(PredefinedRelevanceScoreFn)]. *)
Definition predefined : list pystr := [py "l2"; py "ip"; py "cosine"].

(** [relevance_score_fn] is absent, a [str] or a callable. *)
Definition get_chromadb {E F : Type} (persist_directory : pystr)
    (embeddings_model : E) (collection_name : pystr)
    (relevance_score_fn : option (pystr + F))
  : result (ChromaArgs E F) :=
  match relevance_score_fn with
  | None =>
      Ok (mkChromaArgs collection_name embeddings_model persist_directory
            None None)
  | Some (inl name) =>
      if bool_decide (name ∈ predefined) then
        Ok (mkChromaArgs collection_name embeddings_model persist_directory
              (Some [(py "hnsw:space", name)]) None)
      else Raise AssertionError
  | Some (inr fn) =>
      Ok (mkChromaArgs collection_name embeddings_model persist_directory
            None (Some fn))
  end.

End Factory.

(** ** The retriever configuration: [get_retriever] *)

Inductive RetrieverSearchType :=
| similarity
| similarity_score_threshold
| mmr.

Global Instance search_type_eq_dec : EqDecision RetrieverSearchType.
Proof. solve_decision. Defined.

(** A parameter counts where it applies. *)
Definition applicable {A} (b : bool) (o : option A) : option A :=
  if b then o else None.

(** Values of [search_kwargs]: [k] and [fetch_k] are [int]s,
    [score_threshold] and [lambda_mult] are [float]s that are only
    passed along, so their type stays abstract. *)
Inductive kwarg (float : Type) :=
| KInt (n : Z)
| KFloat (x : float).
Arguments KInt {float} n.
Arguments KFloat {float} x.

(** What [as_retriever(search_type=..., search_kwargs=...)] builds. *)
Record VectorStoreRetriever (VectorStore float : Type) := mkRetriever {
  vectorstore : VectorStore;
  search_type : RetrieverSearchType;
  search_kwargs : pydict (kwarg float)
}.
Arguments mkRetriever {VectorStore float}.
Arguments vectorstore {VectorStore float}.
Arguments search_type {VectorStore float}.
Arguments search_kwargs {VectorStore float}.

(** The calls [get_retriever] makes on the vector store object. *)
Inductive vs_call (float : Type) :=
| AsRetriever (st : RetrieverSearchType) (kwargs : pydict (kwarg float)).
Arguments AsRetriever {float}.

(** [get_retriever] returns the calls made on the vector store next to
    its result; [assert] raises [AssertionError]. *)
Definition get_retriever {VectorStore float : Type}
    (vs : VectorStore) (k : option Z) (st : RetrieverSearchType)
    (score_threshold : option float) (fetch_k : option Z)
    (lambda_mult : option float)
  : list (vs_call float) * result (VectorStoreRetriever VectorStore float) :=
  let search_kwargs : pydict (kwarg float) := [] in
  let search_kwargs :=
    match k with
    | Some k => dict_set (py "k") (KInt k) search_kwargs
    | None => search_kwargs
    end in
  let checked : result (pydict (kwarg float)) :=
    match st with
    | similarity_score_threshold =>
        match score_threshold with
        | None => Raise AssertionError
        | Some t => Ok (dict_set (py "score_threshold") (KFloat t) search_kwargs)
        end
    | mmr =>
        let search_kwargs :=
          match fetch_k with
          | Some n => dict_set (py "fetch_k") (KInt n) search_kwargs
          | None => search_kwargs
          end in
        let search_kwargs :=
          match lambda_mult with
          | Some x => dict_set (py "lambda_mult") (KFloat x) search_kwargs
          | None => search_kwargs
          end in
        Ok search_kwargs
    | similarity => Ok search_kwargs
    end in
  match checked with
  | Raise e => ([], Raise e)
  | Ok search_kwargs =>
      ([AsRetriever st search_kwargs], Ok (mkRetriever vs st search_kwargs))
  end.

(** ** The answer composer: [get_rag_chain] *)

(** Values that flow through the chain's dictionaries. *)
Inductive value :=
| VStr (s : pystr)
| VDocs (docs : list Document).

(** A runnable maps an input to an output or raises. *)
Abbreviation Runnable A B := (A -> result B).

Definition RunnablePassthrough {A} : Runnable A A := Ok.

(** [r1 | r2]. *)
Definition pipe {A B C} (r1 : Runnable A B) (r2 : Runnable B C)
  : Runnable A C :=
  fun x => rbind (r1 x) r2.

(** [RunnableParallel({k: r, ...})]: every step runs on the same input;
    the output has the keys of [steps], in their order. *)
Fixpoint RunnableParallel {A} (steps : pydict (Runnable A value))
  : Runnable A (pydict value) :=
  fun x =>
    match steps with
    | [] => Ok []
    | (k, r) :: rest =>
        rbind (r x) (fun v =>
        rbind (RunnableParallel rest x) (fun d => Ok ((k, v) :: d)))
    end.

(** [{**d1, **d2}]. *)
Definition dict_update {V} (d1 d2 : pydict V) : pydict V :=
  fold_left (fun d kv => dict_set kv.1 kv.2 d) d2 d1.

(** [.assign(k=r, ...)]: the input dictionary extended by the outputs
    of the steps, as a new dictionary. *)
Definition RunnableAssign (steps : pydict (Runnable (pydict value) value))
  : Runnable (pydict value) (pydict value) :=
  fun x => rbind (RunnableParallel steps x) (fun out => Ok (dict_update x out)).

Definition newline : pystr := [10%N].

(** The context block in the words of the specification: an entry is
    the text after [Content: ], a newline, and the [source] value after
    [Source: ]; consecutive entries are one blank line apart, in the
    order retrieved. *)
Definition spec_source_text (doc : Document) : pystr :=
  match dict_get (py "source") (metadata doc) with
  | Some v => py_str v
  | None => []
  end.

Definition spec_entry (doc : Document) : pystr :=
  py "Content: " ++ page_content doc ++ newline
  ++ py "Source: " ++ spec_source_text doc.

Fixpoint spec_context_block (docs : list Document) : pystr :=
  match docs with
  | [] => []
  | [doc] => spec_entry doc
  | doc :: rest => spec_entry doc ++ newline ++ newline ++ spec_context_block rest
  end.

(** The data model's invariant on documents: the metadata has a
    [source]. *)
Definition has_source (doc : Document) : Prop :=
  is_Some (dict_get (py "source") (metadata doc)).

(** The instruction template with its two placeholders filled. *)
Definition template (question source_documents : pystr) : pystr :=
  py "You are an assistant for question-answering tasks on Formula One (F1) documentation."
  ++ newline ++
  py "Given the following extracted parts of a long document and a question, create a final answer with used references (named "
  ++ [34%N] ++ py "sources" ++ [34%N] ++ py ")."
  ++ newline ++
  py "Keep the answer concise. If you don't know the answer, just say that you don't know. Don't try to make up an answer."
  ++ newline ++
  py "ALWAYS return used sources in your answer."
  ++ newline ++ newline ++
  py "QUESTION: " ++ question
  ++ newline ++ py "=========" ++ newline ++
  source_documents
  ++ newline ++ py "=========" ++ newline ++
  py "FINAL ANSWER: ".

(** [ChatPromptTemplate.from_template(template)]: both placeholders are
    looked up in the input dictionary. In this chain both hold a [str]
    when the prompt runs; another value is outside the model. *)
Definition prompt : Runnable (pydict value) pystr :=
  fun x =>
    match dict_get (py "question") x with
    | None => Raise (KeyError (py "question"))
    | Some (VDocs _) => Raise TypeError
    | Some (VStr q) =>
        match dict_get (py "source_documents") x with
        | None => Raise (KeyError (py "source_documents"))
        | Some (VDocs _) => Raise TypeError
        | Some (VStr s) => Ok (template q s)
        end
    end.

(** [lambda x: format_docs(x["source_documents"])]. *)
Definition format_source_documents : Runnable (pydict value) value :=
  fun x =>
    match dict_get (py "source_documents") x with
    | None => Raise (KeyError (py "source_documents"))
    | Some (VStr _) => Raise TypeError
    | Some (VDocs docs) => rbind (format_docs docs) (fun s => Ok (VStr s))
    end.

Section RagChain.

(** The retriever handle and the chat model are the two services the
    chain is built from: a question to its ranked documents, a prompt
    to the text of the reply. *)
Variable retriever : pystr -> list Document.
Variable chat_model : pystr -> pystr.

(** [StrOutputParser()]: the text of the reply. *)
Definition StrOutputParser : Runnable pystr pystr := Ok.

Definition rag_chain_from_docs : Runnable (pydict value) pystr :=
  pipe
    (pipe
       (pipe
          (RunnableAssign [(py "source_documents", format_source_documents)])
          prompt)
       (fun p => Ok (chat_model p)))
    StrOutputParser.

Definition get_rag_chain : Runnable pystr (pydict value) :=
  pipe
    (RunnableParallel
       [(py "source_documents", fun q => Ok (VDocs (retriever q)));
        (py "question", pipe RunnablePassthrough (fun q => Ok (VStr q)))])
    (RunnableAssign
       [(py "answer", pipe rag_chain_from_docs (fun a => Ok (VStr a)))]).

End RagChain.

(** ** The incremental indexer: [create_db] *)

Inductive OnMatchAction :=
| IGNORE
| REPLACE
| FAIL.

(** What [create_db] takes from its surroundings: the two settings it
    reads ([assistant.settings] is configuration, not logic), the
    embeddings model and the text splitter. The splitter is
    [RecursiveCharacterTextSplitter(chunk_size=1000, chunk_overlap=200,
    add_start_index=True)]; [split_text] gives the chunks of a text in
    order, each with the [start_index] the splitter records for it. *)
Class Services := {
  Embedding : Type;
  embed_documents : pystr -> Embedding;
  split_text : pystr -> list (Z * pystr);
  docs_db_directory : pystr;
  docs_db_collection : pystr
}.

Section Indexer.

Context `{Services}.

(** An entry of a Chroma collection, stored under its id. *)
Record Entry := mkEntry {
  e_embedding : Embedding;
  e_document : pystr;
  e_metadata : pydict scalar
}.

(** The persisted vector store at [settings.docs_db_directory]: [None]
    while the directory does not exist, else its collections by name,
    each a map from ids to entries. *)
Definition Chroma : Type := option (gmap pystr (gmap pystr Entry)).

(** Calls that reach the vector store, the loader and the splitter. *)
Inductive event :=
| ListCollections
| GetOrCreateCollection
| Get
| Load
| Delete (ids : list pystr)
| SplitDocuments (docs : list Document)
| AddDocuments (ids : list pystr)
| Persist.

(** Commands: the store is threaded through, the events of a command
    are collected, and an exception ends the command where it is
    raised, with the store as it is then. *)
Definition M (A : Type) : Type := Chroma -> result A * Chroma * list event.

Definition ret {A} (a : A) : M A := fun st => (Ok a, st, []).

Definition raise {A} (e : exn) : M A := fun st => (Raise e, st, []).

Definition bind {A B} (m : M A) (f : A -> M B) : M B :=
  fun st =>
    match m st with
    | (Ok a, st1, ev1) =>
        let '(r, st2, ev2) := f a st1 in (r, st2, ev1 ++ ev2)
    | (Raise e, st1, ev1) => (Raise e, st1, ev1)
    end.

Definition lift {A} (r : result A) : M A := fun st => (r, st, []).

Definition emit (ev : event) : M unit := fun st => (Ok tt, st, [ev]).

End Indexer.

Declare Scope indexer_scope.
Delimit Scope indexer_scope with indexer.
Notation "x <- m ;; k" := (bind m (fun x => k))
  (at level 100, m at next level, right associativity) : indexer_scope.
Notation "m ;; k" := (bind m (fun _ => k))
  (at level 100, right associativity) : indexer_scope.

Section IndexerOps.

Context `{Services}.
Local Open Scope indexer_scope.

(** The entries of the target collection; none while it is absent. *)
Definition entries (st : Chroma) : gmap pystr Entry :=
  match st with
  | Some colls => default ∅ (colls !! docs_db_collection)
  | None => ∅
  end.

Definition set_entries (c : gmap pystr Entry) (st : Chroma) : Chroma :=
  Some (<[docs_db_collection := c]> (default ∅ st)).

(** [settings.docs_db_directory.exists()]. *)
Definition directory_exists : M bool :=
  fun st => (Ok (match st with Some _ => true | None => false end), st, []).

(** [[c.name for c in client.list_collections()]]. *)
Definition list_collections : M (list pystr) :=
  fun st => (Ok (map fst (map_to_list (default ∅ st))), st, [ListCollections]).

(** [get_chromadb]: opens the collection, creating the directory and
    an empty collection where they are missing. *)
Definition get_chromadb : M unit :=
  fun st => (Ok tt, set_entries (entries st) st, [GetOrCreateCollection]).

(** [docs_vectorstore.get(include=["metadatas"])]: ids and metadatas,
    position by position. *)
Definition vs_get : M (list (pystr * pydict scalar)) :=
  fun st =>
    (Ok (map (fun ie => (ie.1, e_metadata ie.2)) (map_to_list (entries st))),
     st, [Get]).

(** [docs_vectorstore.delete(ids)]: removes the entries with these
    ids; an id that is not there is skipped. *)
Definition vs_delete (ids : list pystr) : M unit :=
  fun st =>
    (Ok tt, set_entries (foldr delete (entries st) ids) st, [Delete ids]).

Definition entry_of (doc : Document) : Entry :=
  mkEntry (embed_documents (page_content doc)) (page_content doc)
    (metadata doc).

(** Insert or overwrite by id, in the order of the batch. *)
Definition upsert (c : gmap pystr Entry) (batch : list (pystr * Document))
  : gmap pystr Entry :=
  fold_left (fun c ie => <[ie.1 := entry_of ie.2]> c) batch c.

(** [docs_vectorstore.add_documents(splits, ids=split_ids)]. *)
Definition add_documents (splits : list Document) (ids : list pystr)
  : M unit :=
  fun st =>
    (Ok tt, set_entries (upsert (entries st) (zip ids splits)) st,
     [AddDocuments ids]).

Definition persist : M unit := emit Persist.

(** [loader.load()]: the documents found under [docs_directory]. *)
Definition load (found : list Document) : M (list Document) :=
  fun st => (Ok found, st, [Load]).

(** [text_splitter.split_documents(docs)]: the chunks of every
    document in order, each with the metadata of its document and its
    [start_index]. *)
Definition chunks_of (doc : Document) : list Document :=
  map (fun ic =>
         mkDocument ic.2
           (dict_set (py "start_index") (SInt ic.1) (metadata doc)))
      (split_text (page_content doc)).

Definition split_documents (docs : list Document) : M (list Document) :=
  fun st => (Ok (flat_map chunks_of docs), st, [SplitDocuments docs]).

(** [m["source"]] where the indexer compares, sorts and joins sources:
    the loader sets [source] to the path of the file as a [str]. A
    source that is another scalar is outside the model: the lookup
    stops with [TypeError]. *)
Definition source_of (m : pydict scalar) : result pystr :=
  rbind (metadata_source m) (fun v =>
    match v with
    | SStr s => Ok s
    | _ => Raise TypeError
    end).

(** [sorted(set(xs))]. *)
Definition sorted_set (xs : list pystr) : list pystr :=
  merge_sort str_le (remove_dups xs).

Definition collection_exists_message : pystr :=
  py "Collection '" ++ docs_db_collection
  ++ py "' already exists in the vectorstore at '" ++ docs_db_directory
  ++ py "'. Set '--exist-ok' for appending to existing collections.".

Definition already_indexed_message (doc_filepaths_match : list pystr)
  : pystr :=
  py "Some of the given documents are indexed already. Set '--on-match ignore' to ignore the already indexed documents or '--on-match replace' to index them again. List of the already indexed documents: '"
  ++ str_join (py "', '") (sorted_set doc_filepaths_match) ++ py "'.".

(** Lines 53-64: unless [exist_ok], an existing collection of the
    configured name is an error. *)
Definition collection_gate (exist_ok : bool) : M unit :=
  exists_ <- (if negb exist_ok then directory_exists else ret false) ;;
  if exists_ then
    collection_names <- list_collections ;;
    if bool_decide (docs_db_collection ∈ collection_names)
    then raise (RuntimeError collection_exists_message)
    else ret tt
  else ret tt.

(** Lines 65-75: open the collection and collect the sources it
    holds. *)
Definition indexed_doc_filepaths : M (list pystr) :=
  get_chromadb ;;
  response <- vs_get ;;
  sources <- lift (rmap (fun im => source_of im.2) response) ;;
  ret (sorted_set sources).

(** Lines 87-108: the collision policy, on the loaded documents. *)
Definition apply_on_match (on_match : OnMatchAction)
    (indexed_doc_filepaths : list pystr) (docs : list Document)
  : M (list Document) :=
  match on_match with
  | IGNORE =>
      lift (rfilter (fun doc =>
              rbind (source_of (metadata doc)) (fun s =>
              Ok (negb (bool_decide (s ∈ indexed_doc_filepaths)))))
              docs)
  | REPLACE =>
      response <- vs_get ;;
      selected <- lift (rfilter (fun im =>
              rbind (source_of im.2) (fun s =>
              rbind (rmap (fun doc => source_of (metadata doc)) docs)
                (fun doc_sources => Ok (bool_decide (s ∈ doc_sources)))))
              response) ;;
      vs_delete (map fst selected) ;;
      ret docs
  | FAIL =>
      doc_sources <- lift (rmap (fun doc => source_of (metadata doc)) docs) ;;
      let doc_filepaths_match :=
        filter (fun s => s ∈ indexed_doc_filepaths) (remove_dups doc_sources) in
      match doc_filepaths_match with
      | [] => ret docs
      | _ :: _ =>
          raise (RuntimeError (already_indexed_message doc_filepaths_match))
      end
  end.

(** Lines 53-108 together: the batch that goes on to be indexed.
    [found] is what the loader finds in [docs_directory]. *)
Definition select_batch (found : list Document) (exist_ok : bool)
    (on_match : OnMatchAction) : M (list Document) :=
  collection_gate exist_ok ;;
  indexed <- indexed_doc_filepaths ;;
  docs <- load found ;;
  apply_on_match on_match indexed docs.

(** Lines 110-118: chunk, identify and upsert a batch that is not
    empty. *)
Definition index_batch (docs : list Document) : M unit :=
  match docs with
  | [] => ret tt
  | _ :: _ =>
      splits <- split_documents docs ;;
      let split_ids := map stable_hash splits in
      add_documents splits split_ids ;;
      persist
  end.

Definition create_db (found : list Document) (exist_ok : bool)
    (on_match : OnMatchAction) : M unit :=
  docs <- select_batch found exist_ok on_match ;;
  index_batch docs.

(** *** Notions the properties are stated with *)

(** The collection [create_db] works on, where there is one. *)
Definition collection_of (st : Chroma) : option (gmap pystr Entry) :=
  match st with
  | Some colls => colls !! docs_db_collection
  | None => None
  end.

(** The calls of the gate that passes. *)
Definition gate_events (exist_ok : bool) (st : Chroma) : list event :=
  if exist_ok then []
  else match st with
       | Some _ => [ListCollections]
       | None => []
       end.

(** What [get] answers for a collection. *)
Definition response_of (c : gmap pystr Entry)
  : list (pystr * pydict scalar) :=
  map (fun ie => (ie.1, e_metadata ie.2)) (map_to_list c).

(** The source of metadata that has one. *)
Definition source_text (m : pydict scalar) : pystr :=
  match source_of m with
  | Ok s => s
  | Raise _ => []
  end.

(** The metadata has a [source] that is a [str]. *)
Definition has_str_source (m : pydict scalar) : bool :=
  match source_of m with
  | Ok _ => true
  | Raise _ => false
  end.

Definition sourced_docs (docs : list Document) : Prop :=
  Forall (fun doc => has_str_source (metadata doc) = true) docs.

Definition sourced_entries (c : gmap pystr Entry) : Prop :=
  map_Forall (fun _ e => has_str_source (e_metadata e) = true) c.

(** The chunks [create_db] computes for a document set. *)
Definition chunks (docs : list Document) : list Document :=
  flat_map chunks_of docs.


(** No chunk of a batch has the identity of an entry of the index
    with other metadata. *)
Definition index_consistent (c : gmap pystr Entry) (batch : list Document)
  : bool :=
  forallb (fun chunk =>
    match c !! stable_hash chunk with
    | Some e => dict_eqb (metadata chunk) (e_metadata e)
    | None => true
    end)
    batch.


Definition indexing (ev : event) : bool :=
  match ev with
  | SplitDocuments _ | AddDocuments _ | Persist => true
  | _ => false
  end.

(** The ids of the entries of the index with a given source. *)
Definition has_entry_for (st : Chroma) (s : pystr) (id : pystr) : Prop :=
  exists e, entries st !! id = Some e /\ source_of (e_metadata e) = Ok s.

(** A source of a loaded document that the index already has. *)
Definition offending (found : list Document) (st : Chroma) (s : pystr)
  : Prop :=
  (exists doc, doc ∈ found /\ source_of (metadata doc) = Ok s)
  /\ exists id, has_entry_for st s id.




(** The ids REPLACE deletes: the entries whose source is the source
    of a loaded document. *)
Definition replaced_ids (found : list Document) (c : gmap pystr Entry)
  : list pystr :=
  map fst
    (List.filter
       (fun im => bool_decide
          (source_text im.2
             ∈ map (fun doc => source_text (metadata doc)) found))
       (response_of c)).



(** The gate is closed: [exist_ok] is unset and the collection is
    there. *)
Definition gate_closed (exist_ok : bool) (st : Chroma) : bool :=
  negb exist_ok && bool_decide (is_Some (collection_of st)).

(** The batch the IGNORE policy keeps, given the collection. *)
Definition ignore_batch (c : gmap pystr Entry) (found : list Document)
  : result (list Document) :=
  rbind (rmap (fun im => source_of im.2) (response_of c)) (fun sources =>
    rfilter (fun doc =>
      rbind (source_of (metadata doc)) (fun s =>
      Ok (negb (bool_decide (s ∈ sorted_set sources)))))
      found).

(** A batch of chunks with their identities. *)
Definition identified (batch : list Document) : list (pystr * Document) :=
  zip (map stable_hash batch) batch.

Definition no_indexing (evs : list event) : Prop :=
  forallb (fun ev => negb (indexing ev)) evs = true.

(** The sources FAIL finds already indexed, given the collection. *)
Definition fail_matches (c : gmap pystr Entry) (found : list Document)
  : result (list pystr) :=
  rbind (rmap (fun im => source_of im.2) (response_of c)) (fun sources =>
  rbind (rmap (fun doc => source_of (metadata doc)) found) (fun doc_sources =>
    Ok (filter (fun s => s ∈ sorted_set sources) (remove_dups doc_sources)))).

(** The entries REPLACE selects for deletion, given the collection. *)
Definition replace_selection (c : gmap pystr Entry) (found : list Document)
  : result (list (pystr * pydict scalar)) :=
  rbind (rmap (fun im => source_of im.2) (response_of c)) (fun _ =>
    rfilter (fun im =>
      rbind (source_of im.2) (fun s =>
      rbind (rmap (fun doc => source_of (metadata doc)) found)
        (fun doc_sources => Ok (bool_decide (s ∈ doc_sources)))))
      (response_of c)).

(** The outcome of [create_db] past the gate, as a result and the
    entries of the collection, for each policy. *)
Definition outcome (on_match : OnMatchAction) (c : gmap pystr Entry)
    (found : list Document) : result unit * gmap pystr Entry :=
  match on_match with
  | IGNORE =>
      match ignore_batch c found with
      | Ok batch => (Ok tt, upsert c (identified (chunks batch)))
      | Raise e => (Raise e, c)
      end
  | REPLACE =>
      match replace_selection c found with
      | Ok selected =>
          (Ok tt,
           upsert (foldr delete c (map fst selected))
             (identified (chunks found)))
      | Raise e => (Raise e, c)
      end
  | FAIL =>
      match fail_matches c found with
      | Ok [] => (Ok tt, upsert c (identified (chunks found)))
      | Ok (s :: matches) =>
          (Raise (RuntimeError (already_indexed_message (s :: matches))), c)
      | Raise e => (Raise e, c)
      end
  end.

(** Every entry is stored under the identity of its own metadata. *)
Definition content_addressed (c : gmap pystr Entry) : Prop :=
  map_Forall
    (fun id e => id = stable_hash (mkDocument (e_document e) (e_metadata e)))
    c.

End IndexerOps.

(** ** Example data *)

Definition doc_front : Document :=
  mkDocument (py "Points are awarded to the top ten.")
    [(py "source", SStr (py "rules.html")); (py "title", SStr (py "Rules"));
     (py "start_index", SInt 0)].

Definition doc_back : Document :=
  mkDocument (py "A different passage.")
    [(py "start_index", SInt 0); (py "title", SStr (py "Rules"));
     (py "source", SStr (py "rules.html"))].

(** Services for the examples: a splitter that cuts windows of eight
    characters, each starting six characters after the one before; the
    embedding of a text kept as its length. *)
Fixpoint windows (fuel : nat) (start : Z) (text : pystr)
  : list (Z * pystr) :=
  match fuel, text with
  | O, _ | _, [] => []
  | S fuel', _ =>
      (start, take 8 text)
      :: (if (length text <=? 8)%nat then []
          else windows fuel' (start + 6) (drop 6 text))
  end.

Global Instance demo_services : Services := {|
  Embedding := nat;
  embed_documents := fun text => length text;
  split_text := fun text => windows (length text) 0 text;
  docs_db_directory := py "data/db";
  docs_db_collection := py "docs"
|}.

Definition doc_html : Document :=
  mkDocument (py "Formula One rules")
    [(py "source", SStr (py "doc.html")); (py "title", SStr (py "Rules"))].

(** The same file after an edit that shortens it. *)
Definition doc_html_edited : Document :=
  mkDocument (py "F1 rules")
    [(py "source", SStr (py "doc.html")); (py "title", SStr (py "Rules"))].

Definition other_html : Document :=
  mkDocument (py "Circuits")
    [(py "source", SStr (py "other.html")); (py "title", SStr (py "Tracks"))].

(** The store after [doc.html] was indexed into a fresh directory. *)
Definition store_with_doc : Chroma :=
  (create_db [doc_html] false FAIL None).1.2.

(** A document whose loader set no source. *)
Definition doc_unsourced : Document :=
  mkDocument (py "Notes") [(py "title", SStr (py "Notes"))].

(** The first chunk of [doc.html] and the only chunk of [other.html],
    as the example splitter cuts them. *)
Definition chunk_doc_html : Document :=
  mkDocument (py "Formula ")
    (dict_set (py "start_index") (SInt 0) (metadata doc_html)).

Definition chunk_other_html : Document :=
  mkDocument (py "Circuits")
    (dict_set (py "start_index") (SInt 0) (metadata other_html)).

(* ================================================================= *)
(** * Part II: properties *)
(* ================================================================= *)

(** ** Results and comprehensions *)

Lemma rmap_Ok {A B} (f : A -> result B) (g : A -> B) (xs : list A) :
  Forall (fun x => f x = Ok (g x)) xs -> rmap f xs = Ok (map g xs).
Proof.
  induction 1 as [|x xs Hx _ IH]; simpl; [done|].
  by rewrite Hx, IH.
Qed.

Lemma rmap_Ok_inv {A B} (f : A -> result B) (xs : list A) (ys : list B) :
  rmap f xs = Ok ys -> Forall2 (fun x y => f x = Ok y) xs ys.
Proof.
  revert ys. induction xs as [|x xs IH]; simpl; intros ys Hys.
  - injection Hys as <-. constructor.
  - destruct (f x) as [y|] eqn:Hy; simpl in Hys; [|done].
    destruct (rmap f xs) as [ys'|]; simpl in Hys; [|done].
    injection Hys as <-. constructor; auto.
Qed.

Lemma rfilter_Ok {A} (p : A -> result bool) (q : A -> bool) (xs : list A) :
  Forall (fun x => p x = Ok (q x)) xs ->
  rfilter p xs = Ok (List.filter q xs).
Proof.
  induction 1 as [|x xs Hx _ IH]; simpl; [done|].
  rewrite Hx, IH. simpl. by destruct (q x).
Qed.

(** ** The order on [str] *)

Lemma str_leb_refl a : str_leb a a = true.
Proof. induction a as [|x a IH]; simpl; [done|]. by rewrite N.compare_refl. Qed.

Lemma str_leb_total a b : str_leb a b = true \/ str_leb b a = true.
Proof.
  revert b. induction a as [|x a IH]; intros [|y b]; simpl; auto.
  rewrite (N.compare_antisym x y).
  destruct (x ?= y)%N; simpl; auto.
Qed.

Lemma str_leb_antisym a b :
  str_leb a b = true -> str_leb b a = true -> a = b.
Proof.
  revert b. induction a as [|x a IH]; intros [|y b]; simpl; try done.
  rewrite (N.compare_antisym x y).
  destruct (x ?= y)%N eqn:E; simpl; try done.
  apply N.compare_eq in E. intros. f_equal; auto.
Qed.

Lemma str_leb_trans a b c :
  str_leb a b = true -> str_leb b c = true -> str_leb a c = true.
Proof.
  revert b c. induction a as [|x a IH]; intros [|y b] [|z c]; simpl; try done.
  destruct (x ?= y)%N eqn:Exy; try done.
  - apply N.compare_eq in Exy. subst y.
    destruct (x ?= z)%N; try done. apply IH.
  - destruct (y ?= z)%N eqn:Eyz; try done.
    + apply N.compare_eq in Eyz. subst z. by rewrite Exy.
    + assert ((x ?= z)%N = Lt) as ->; [|done].
      rewrite N.compare_lt_iff in *. lia.
Qed.

Global Instance str_le_refl : Reflexive str_le.
Proof. intros a. apply str_leb_refl. Qed.
Global Instance str_le_trans : Transitive str_le.
Proof. intros a b c. apply str_leb_trans. Qed.
Global Instance str_le_total : Total str_le.
Proof. intros a b. apply str_leb_total. Qed.
Global Instance str_le_antisym : AntiSymm (=) str_le.
Proof. intros a b. apply str_leb_antisym. Qed.

Global Instance item_le_trans : Transitive Json.item_le.
Proof. intros p q r. unfold Json.item_le. apply str_le_trans. Qed.
Global Instance item_le_total : Total Json.item_le.
Proof. intros p q. unfold Json.item_le. apply str_le_total. Qed.

(** ** Substrings *)







(** ** Dictionaries *)

Lemma dict_get_Some_elem_of {V} (k : pystr) (v : V) (d : pydict V) :
  dict_get k d = Some v -> (k, v) ∈ d.
Proof.
  induction d as [|[k' v'] d IH]; simpl; [done|].
  destruct (decide (k = k')) as [->|].
  - intros [= ->]. left.
  - intros. right. auto.
Qed.

Lemma dict_get_None_not_key {V} (k : pystr) (d : pydict V) :
  dict_get k d = None <-> k ∉ map fst d.
Proof.
  induction d as [|[k' v'] d IH]; simpl.
  - split; [intros _; apply not_elem_of_nil | done].
  - rewrite not_elem_of_cons. destruct (decide (k = k')) as [->|]; [|tauto].
    split; [done | tauto].
Qed.

Lemma elem_of_dict_get {V} (k : pystr) (v : V) (d : pydict V) :
  dict_wf d -> (k, v) ∈ d -> dict_get k d = Some v.
Proof.
  unfold dict_wf. induction d as [|[k' v'] d IH]; simpl.
  - intros _ Hin. by apply elem_of_nil in Hin.
  - rewrite NoDup_cons. intros [Hk' Hd] Hin.
    apply elem_of_cons in Hin as [[= -> ->]|Hin].
    + by rewrite decide_True.
    + destruct (decide (k = k')) as [->|]; [|auto].
      exfalso. apply Hk'. change k' with (fst (k', v)).
      apply list_elem_of_In, in_map, list_elem_of_In, Hin.
Qed.

Lemma dict_wf_NoDup {V} (d : pydict V) : dict_wf d -> NoDup d.
Proof.
  unfold dict_wf. induction d as [|[k v] d IH]; simpl.
  - constructor.
  - rewrite !NoDup_cons. intros [Hk Hd]. split; [|auto].
    intros Hin. apply Hk. change k with (fst (k, v)).
    apply list_elem_of_In, in_map, list_elem_of_In, Hin.
Qed.

Lemma dict_eqb_lookup (d1 d2 : pydict scalar) k v :
  dict_eqb d1 d2 = true -> (k, v) ∈ d1 -> dict_get k d2 = Some v.
Proof.
  unfold dict_eqb. rewrite andb_true_iff, forallb_forall.
  intros [_ Hall] Hin.
  apply list_elem_of_In, Hall in Hin. by apply bool_decide_eq_true in Hin.
Qed.

(** Equal dictionaries hold the same items, up to their order. *)
Lemma dict_eqb_Permutation (d1 d2 : pydict scalar) :
  dict_wf d1 -> dict_eqb d1 d2 = true -> d1 ≡ₚ d2.
Proof.
  intros Hwf1 Heq.
  apply submseteq_length_Permutation.
  - apply NoDup_submseteq; [by apply dict_wf_NoDup|].
    intros [k v] Hin. apply dict_get_Some_elem_of.
    by apply (dict_eqb_lookup d1).
  - unfold dict_eqb in Heq. apply andb_true_iff in Heq as [Hlen _].
    apply Nat.eqb_eq in Hlen. lia.
Qed.

(** ** Key-sorted serialization *)

Lemma sorted_items_unique (d1 d2 : pydict scalar) :
  dict_wf d2 -> d1 ≡ₚ d2 ->
  merge_sort Json.item_le d1 = merge_sort Json.item_le d2.
Proof.
  intros Hwf Hperm.
  apply (Sorted_unique_strong Json.item_le).
  - intros [k1 v1] [k2 v2] H1 H2 H12 H21.
    rewrite merge_sort_Permutation in H1, H2. rewrite Hperm in H1.
    assert (k1 = k2) as -> by (by apply str_leb_antisym).
    apply (elem_of_dict_get _ _ _ Hwf) in H1, H2. congruence.
  - apply Sorted_merge_sort, _.
  - apply Sorted_merge_sort, _.
  - by rewrite !merge_sort_Permutation.
Qed.

Lemma dumps_sorted_eq (d1 d2 : pydict scalar) :
  dict_wf d1 -> dict_wf d2 -> dict_eqb d1 d2 = true ->
  Json.dumps_sorted d1 = Json.dumps_sorted d2.
Proof.
  intros Hwf1 Hwf2 Heq. unfold Json.dumps_sorted.
  by rewrite (sorted_items_unique d1 d2 Hwf2 (dict_eqb_Permutation _ _ Hwf1 Heq)).
Qed.

(** ** The digest *)

Lemma hex_digit_is_hex n : 0 <= n < 16 -> is_hex (hex_digit n) = true.
Proof.
  intros Hn. destruct n as [|p|p]; [reflexivity| |lia].
  do 4 (try destruct p as [p|p|]); try reflexivity; lia.
Qed.

Lemma land_15_range x : 0 <= Z.land x 15 < 16.
Proof.
  change 15 with (Z.ones 4). rewrite Z.land_ones by lia.
  apply Z.mod_pos_bound. lia.
Qed.

Lemma hex4_is_hex n : forallb is_hex (hex4 n) = true.
Proof.
  unfold hex4. simpl. rewrite !hex_digit_is_hex by apply land_15_range. done.
Qed.

Lemma hex8_length w : length (Sha1.hex8 w) = 8%nat.
Proof. reflexivity. Qed.

Lemma hex8_is_hex w : forallb is_hex (Sha1.hex8 w) = true.
Proof. unfold Sha1.hex8. rewrite forallb_app, !hex4_is_hex. done. Qed.

Lemma hexdigest_length msg : length (Sha1.hexdigest msg) = 40%nat.
Proof.
  unfold Sha1.hexdigest. destruct (Sha1.digest msg) as [[[[h0 h1] h2] h3] h4].
  rewrite !length_app, !hex8_length. done.
Qed.

Lemma hexdigest_is_hex msg : forallb is_hex (Sha1.hexdigest msg) = true.
Proof.
  unfold Sha1.hexdigest. destruct (Sha1.digest msg) as [[[[h0 h1] h2] h3] h4].
  rewrite !forallb_app, !hex8_is_hex. done.
Qed.

(** SHA-1 test vectors (FIPS 180), and the identity of a chunk as
    [hashlib] and [json] give it. *)
Example sha1_abc :
  Sha1.hexdigest (encode (py "abc"))
  = py "a9993e364706816aba3e25717850c26c9cd0d89d".
Proof. vm_compute. reflexivity. Qed.

Example sha1_empty :
  Sha1.hexdigest [] = py "da39a3ee5e6b4b0d3255bfef95601890afd80709".
Proof. vm_compute. reflexivity. Qed.

Example sha1_two_blocks :
  Sha1.hexdigest
    (encode (py "abcdbcdecdefdefgefghfghighijhijkijkljklmklmnlmnomnopnopq"))
  = py "84983e441c3bd26ebaae4aa1f95129e5e54670f1".
Proof. vm_compute. reflexivity. Qed.

Example dumps_sorted_chunk :
  Json.dumps_sorted
    [(py "title", SStr (py "T")); (py "source", SStr (py "doc.html"));
     (py "start_index", SInt 0)]
  = py "{" ++ [34%N] ++ py "source" ++ [34%N] ++ py ": " ++ [34%N]
    ++ py "doc.html" ++ [34%N] ++ py ", " ++ [34%N] ++ py "start_index"
    ++ [34%N] ++ py ": 0, " ++ [34%N] ++ py "title" ++ [34%N] ++ py ": "
    ++ [34%N] ++ py "T" ++ [34%N] ++ py "}".
Proof. vm_compute. reflexivity. Qed.

Example stable_hash_chunk :
  stable_hash
    (mkDocument (py "any text")
       [(py "source", SStr (py "doc.html")); (py "title", SStr (py "T"));
        (py "start_index", SInt 0)])
  = py "605a51fca2b93c54ff455b7840bb057c04abc897".
Proof. vm_compute. reflexivity. Qed.

(** C1. Two documents whose metadata dictionaries are equal (the same
    keys with the same values, whatever the insertion order and
    whatever the texts) have the same [stable_hash], and that identity
    is a string of 40 hexadecimal digits: [stable_hash] is a function
    of the key-sorted serialization of the metadata alone. *)
Theorem stable_hash_deterministic (doc1 doc2 : Document) :
  dict_wf (metadata doc1) ->
  dict_wf (metadata doc2) ->
  dict_eqb (metadata doc1) (metadata doc2) = true ->
  stable_hash doc1 = stable_hash doc2
  /\ length (stable_hash doc1) = 40%nat
  /\ forallb is_hex (stable_hash doc1) = true
  /\ stable_hash doc1
     = Sha1.hexdigest (encode (Json.dumps_sorted (metadata doc2))).
Proof.
  intros Hwf1 Hwf2 Heq. unfold stable_hash.
  rewrite (dumps_sorted_eq _ _ Hwf1 Hwf2 Heq).
  auto using hexdigest_length, hexdigest_is_hex.
Qed.

Lemma stable_hash_deterministic_witness :
  stable_hash doc_front = stable_hash doc_back
  /\ length (stable_hash doc_front) = 40%nat
  /\ forallb is_hex (stable_hash doc_front) = true
  /\ stable_hash doc_front
     = Sha1.hexdigest (encode (Json.dumps_sorted (metadata doc_back))).
Proof.
  apply (stable_hash_deterministic doc_front doc_back).
  - apply (bool_decide_unpack _). vm_compute. reflexivity.
  - apply (bool_decide_unpack _). vm_compute. reflexivity.
  - vm_compute. reflexivity.
Defined.

(** ** The context block *)

Lemma format_docs_blocks (docs : list Document) :
  Forall has_source docs ->
  format_docs docs = Ok (str_join [10%N; 10%N] (map spec_entry docs)).
Proof.
  intros Hsrc. unfold format_docs.
  rewrite (rmap_Ok _ spec_entry); [done|].
  eapply Forall_impl; [exact Hsrc|]. intros doc [v Hv].
  unfold spec_entry, spec_source_text, metadata_source. by rewrite Hv.
Qed.

Lemma str_join_spec_context_block (docs : list Document) :
  str_join [10%N; 10%N] (map spec_entry docs) = spec_context_block docs.
Proof.
  induction docs as [|doc [|doc' rest] IH]; simpl in *; [done..|].
  rewrite IH. by rewrite <- !app_assoc.
Qed.

(** C7. When every document has a source, [format_docs] returns the
    context block of the specification: each document rendered as
    [Content: <text>], a newline, [Source: <source>], consecutive
    entries separated by exactly two newlines, in the given order; the
    entry of a document is what [format_doc] returns for it. *)
Theorem format_docs_context_block (docs : list Document) :
  Forall has_source docs ->
  format_docs docs = Ok (spec_context_block docs)
  /\ Forall (fun doc => format_doc doc = Ok (spec_entry doc)) docs.
Proof.
  intros Hsrc. split.
  - by rewrite format_docs_blocks, str_join_spec_context_block.
  - eapply Forall_impl; [exact Hsrc|]. intros doc [v Hv].
    unfold format_doc, spec_entry, spec_source_text, metadata_source.
    by rewrite Hv.
Qed.

Lemma format_docs_context_block_witness :
  format_docs [doc_front; doc_back]
  = Ok (py "Content: Points are awarded to the top ten." ++ newline
        ++ py "Source: rules.html" ++ newline ++ newline
        ++ py "Content: A different passage." ++ newline
        ++ py "Source: rules.html").
Proof.
  refine (proj1 (format_docs_context_block [doc_front; doc_back] _)).
  repeat constructor; vm_compute; eauto.
Defined.

(** Without a [source] the f-string raises [KeyError]. *)
Example format_docs_KeyError :
  format_docs [mkDocument (py "text") [(py "title", SStr (py "T"))]]
  = Raise (KeyError (py "source")).
Proof. reflexivity. Qed.

(** ** The retriever configuration *)

(** C6. With the search type [similarity_score_threshold] and no
    [score_threshold], [get_retriever] raises at the assertion, having
    made no call on the vector store; with a [score_threshold] it calls
    [as_retriever] once, and the search configuration holds that
    threshold under the key [score_threshold]. *)
Theorem get_retriever_threshold_required {VectorStore float : Type}
    (vs : VectorStore) (k fetch_k : option Z) (lambda_mult : option float) :
  get_retriever vs k similarity_score_threshold None fetch_k lambda_mult
  = ([], Raise AssertionError)
  /\ forall t : float,
     exists kwargs,
       get_retriever vs k similarity_score_threshold (Some t) fetch_k lambda_mult
       = ([AsRetriever similarity_score_threshold kwargs],
          Ok (mkRetriever vs similarity_score_threshold kwargs))
       /\ dict_get (py "score_threshold") kwargs = Some (KFloat t).
Proof.
  split; [reflexivity|]. intros t.
  destruct k as [k|]; eexists; (split; [reflexivity|reflexivity]).
Qed.

(** C9. Unless the search type is [similarity_score_threshold], the
    [score_threshold] leaves the outcome of [get_retriever] unchanged,
    and the call is accepted; unless the search type is [mmr], so do
    [fetch_k] and [lambda_mult]. *)
Theorem get_retriever_inapplicable_ignored {VectorStore float : Type}
    (vs : VectorStore) (k : option Z) (st : RetrieverSearchType)
    (t1 t2 : option float) (fk1 fk2 : option Z) (lm1 lm2 : option float) :
  (st <> similarity_score_threshold ->
   get_retriever vs k st t1 fk1 lm1 = get_retriever vs k st t2 fk1 lm1
   /\ exists r, (get_retriever vs k st t1 fk1 lm1).2 = Ok r)
  /\ (st <> mmr ->
      get_retriever vs k st t1 fk1 lm1 = get_retriever vs k st t1 fk2 lm2).
Proof.
  split; intros Hst; destruct st; try done.
  - split; [reflexivity|]. eexists. reflexivity.
  - split; [reflexivity|]. eexists. reflexivity.
Qed.

Lemma get_retriever_inapplicable_ignored_witness :
  get_retriever tt (Some 4) similarity (Some 7%nat) (Some 20) (Some 5%nat)
  = get_retriever tt (Some 4) similarity None (Some 20) (Some 5%nat)
  /\ get_retriever tt (Some 4) similarity (Some 7%nat) (Some 20) (Some 5%nat)
     = get_retriever tt (Some 4) similarity (Some 7%nat) None None.
Proof.
  destruct (get_retriever_inapplicable_ignored (float := nat) tt (Some 4)
              similarity (Some 7%nat) None (Some 20) None (Some 5%nat) None)
    as [Hthreshold Hmmr].
  split.
  - apply Hthreshold. discriminate.
  - apply Hmmr. discriminate.
Defined.

(** A threshold given with another search type does not reach the
    search configuration. *)
Example get_retriever_similarity_drops_threshold :
  get_retriever tt (Some 4) similarity (Some 7%nat) None None
  = ([AsRetriever similarity [(py "k", KInt 4)]],
     Ok (mkRetriever tt similarity [(py "k", KInt 4)])).
Proof. reflexivity. Qed.

(** ** The answer composer *)

Lemma rag_chain_first_step (retriever : pystr -> list Document) question :
  RunnableParallel
    [(py "source_documents", fun q => Ok (VDocs (retriever q)));
     (py "question", pipe RunnablePassthrough (fun q => Ok (VStr q)))]
    question
  = Ok [(py "source_documents", VDocs (retriever question));
        (py "question", VStr question)].
Proof. reflexivity. Qed.

Lemma format_source_documents_run docs question context :
  format_docs docs = Ok context ->
  RunnableAssign [(py "source_documents", format_source_documents)]
    [(py "source_documents", VDocs docs); (py "question", VStr question)]
  = Ok [(py "source_documents", VStr context); (py "question", VStr question)].
Proof.
  intros Hctx. unfold RunnableAssign. simpl RunnableParallel.
  unfold format_source_documents.
  replace (dict_get (py "source_documents")
             [(py "source_documents", VDocs docs); (py "question", VStr question)])
    with (Some (VDocs docs)) by (vm_compute; reflexivity).
  rewrite Hctx. cbn [rbind]. vm_compute. reflexivity.
Qed.

Lemma prompt_run question context :
  prompt [(py "source_documents", VStr context); (py "question", VStr question)]
  = Ok (template question context).
Proof. vm_compute. reflexivity. Qed.

Lemma rag_chain_from_docs_run chat_model docs question context :
  format_docs docs = Ok context ->
  rag_chain_from_docs chat_model
    [(py "source_documents", VDocs docs); (py "question", VStr question)]
  = Ok (chat_model (template question context)).
Proof.
  intros Hctx. unfold rag_chain_from_docs, pipe, StrOutputParser.
  rewrite (format_source_documents_run _ _ _ Hctx). cbn [rbind].
  rewrite prompt_run. reflexivity.
Qed.

Lemma rag_chain_answer_added (docs : value) (question answer : value) :
  dict_update [(py "source_documents", docs); (py "question", question)]
    [(py "answer", answer)]
  = [(py "source_documents", docs); (py "question", question);
     (py "answer", answer)].
Proof. vm_compute. reflexivity. Qed.

(** C8. For a question whose retrieved documents all have a source,
    the chain returns a dictionary with exactly three keys: under
    [source_documents] the documents the retriever returned, in their
    order; under [question] the question; under [answer] the reply of
    the chat model to the template filled with the question and the
    context block of those documents. *)
Theorem rag_chain_returns_retrieved_documents
    (retriever : pystr -> list Document) (chat_model : pystr -> pystr)
    (question : pystr) :
  Forall has_source (retriever question) ->
  get_rag_chain retriever chat_model question
  = Ok [(py "source_documents", VDocs (retriever question));
        (py "question", VStr question);
        (py "answer",
         VStr (chat_model
                 (template question
                    (spec_context_block (retriever question)))))].
Proof.
  intros Hsrc.
  unfold get_rag_chain, pipe.
  rewrite rag_chain_first_step. cbn [rbind].
  unfold RunnableAssign. simpl RunnableParallel. unfold pipe.
  rewrite (rag_chain_from_docs_run _ _ _ (spec_context_block (retriever question))).
  - cbn [rbind]. by rewrite rag_chain_answer_added.
  - rewrite format_docs_blocks by done. by rewrite str_join_spec_context_block.
Qed.

Lemma rag_chain_returns_retrieved_documents_witness :
  get_rag_chain (fun _ => [doc_front; doc_back]) (fun p => py "See rules.html.")
    (py "What is the points system?")
  = Ok [(py "source_documents", VDocs [doc_front; doc_back]);
        (py "question", VStr (py "What is the points system?"));
        (py "answer", VStr (py "See rules.html."))].
Proof.
  apply (rag_chain_returns_retrieved_documents
           (fun _ => [doc_front; doc_back]) (fun p => py "See rules.html.")
           (py "What is the points system?")).
  repeat constructor; vm_compute; eauto.
Defined.

(** ** The incremental indexer *)

Section IndexerProofs.

Context `{Services}.
Local Open Scope indexer_scope.

(** *** Running commands *)

Lemma bind_Ok {A B} (m : M A) (f : A -> M B) st a st1 ev1 :
  m st = (Ok a, st1, ev1) ->
  bind m f st = (let '(r, st2, ev2) := f a st1 in (r, st2, ev1 ++ ev2)).
Proof. intros Hm. unfold bind. by rewrite Hm. Qed.

Lemma bind_Raise {A B} (m : M A) (f : A -> M B) st e st1 ev1 :
  m st = (Raise e, st1, ev1) -> bind m f st = (Raise e, st1, ev1).
Proof. intros Hm. unfold bind. by rewrite Hm. Qed.

(** *** The store *)

Lemma entries_set_entries c st : entries (set_entries c st) = c.
Proof. unfold entries, set_entries. by rewrite lookup_insert_eq. Qed.

Lemma set_entries_twice c c' st :
  set_entries c (set_entries c' st) = set_entries c st.
Proof. unfold set_entries. simpl. by rewrite insert_insert_eq. Qed.


Lemma elem_of_names {V} (m : gmap pystr V) k :
  k ∈ map fst (map_to_list m) <-> is_Some (m !! k).
Proof.
  rewrite list_elem_of_In, in_map_iff. split.
  - intros [[k' v] [<- Hin]]. apply list_elem_of_In in Hin.
    apply elem_of_map_to_list in Hin. by exists v.
  - intros [v Hv]. exists (k, v). split; [done|].
    apply list_elem_of_In. by apply elem_of_map_to_list.
Qed.

(** *** The collection gate *)

Lemma collection_gate_closed colls :
  is_Some (colls !! docs_db_collection) ->
  collection_gate false (Some colls)
  = (Raise (RuntimeError collection_exists_message), Some colls,
     [ListCollections]).
Proof.
  intros Hc. unfold collection_gate.
  erewrite bind_Ok by reflexivity. cbn [negb app].
  erewrite bind_Ok by reflexivity.
  rewrite bool_decide_eq_true_2 by (by apply elem_of_names).
  reflexivity.
Qed.

Lemma select_batch_gate found on_match colls :
  is_Some (colls !! docs_db_collection) ->
  select_batch found false on_match (Some colls)
  = (Raise (RuntimeError collection_exists_message), Some colls,
     [ListCollections]).
Proof.
  intros Hc. unfold select_batch.
  apply bind_Raise. by apply collection_gate_closed.
Qed.

(** C5. With [exist_ok] unset and the target collection present in
    the persisted store, [create_db] raises the error that names the
    collection and the directory; the store is as before, the only
    call made is the listing of the collections (no document is
    loaded, no entry read or written), and all of this holds whatever
    the collision policy is. *)
Theorem create_db_collection_gate
    (found : list Document) (on_match : OnMatchAction)
    (colls : gmap pystr (gmap pystr Entry)) :
  is_Some (colls !! docs_db_collection) ->
  create_db found false on_match (Some colls)
  = (Raise (RuntimeError collection_exists_message), Some colls,
     [ListCollections]).
Proof.
  intros Hc. unfold create_db.
  apply bind_Raise. by apply select_batch_gate.
Qed.

Lemma collection_gate_open exist_ok st :
  exist_ok = true \/ collection_of st = None ->
  collection_gate exist_ok st = (Ok tt, st, gate_events exist_ok st).
Proof.
  intros Hopen. destruct exist_ok; [reflexivity|].
  destruct Hopen as [|Hnone]; [done|].
  destruct st as [colls|]; [|reflexivity].
  unfold collection_gate.
  erewrite bind_Ok by reflexivity. cbn [negb app].
  erewrite bind_Ok by reflexivity.
  rewrite bool_decide_eq_false_2; [reflexivity|].
  rewrite elem_of_names. simpl in *. rewrite Hnone. by intros [? ?].
Qed.

(** *** The sources already indexed *)

Lemma has_str_source_Ok m :
  has_str_source m = true -> source_of m = Ok (source_text m).
Proof. unfold has_str_source, source_text. by destruct (source_of m). Qed.

Lemma source_of_has_str_source m s :
  source_of m = Ok s -> has_str_source m = true /\ source_text m = s.
Proof. unfold has_str_source, source_text. by intros ->. Qed.

Lemma elem_of_sorted_set s (l : list pystr) : s ∈ sorted_set l <-> s ∈ l.
Proof.
  unfold sorted_set. by rewrite merge_sort_Permutation, elem_of_remove_dups.
Qed.

Lemma elem_of_response_of (c : gmap pystr Entry) id m :
  (id, m) ∈ response_of c <-> exists e, c !! id = Some e /\ e_metadata e = m.
Proof.
  unfold response_of. rewrite list_elem_of_In, in_map_iff. split.
  - intros [[id' e] [[= <- <-] Hin]]. exists e. split; [|done].
    by apply elem_of_map_to_list, list_elem_of_In.
  - intros [e [He <-]]. exists (id, e). split; [done|].
    by apply list_elem_of_In, elem_of_map_to_list.
Qed.

Lemma indexed_doc_filepaths_run st :
  indexed_doc_filepaths st
  = (rbind (rmap (fun im => source_of im.2) (response_of (entries st)))
       (fun sources => Ok (sorted_set sources)),
     set_entries (entries st) st, [GetOrCreateCollection; Get]).
Proof.
  unfold indexed_doc_filepaths.
  erewrite bind_Ok by reflexivity.
  erewrite bind_Ok by reflexivity.
  rewrite entries_set_entries. fold (response_of (entries st)).
  unfold bind, lift, ret.
  by destruct (rmap _ (response_of (entries st))).
Qed.

Lemma response_sources_Ok (c : gmap pystr Entry) :
  sourced_entries c ->
  rmap (fun im => source_of im.2) (response_of c)
  = Ok (map (fun im => source_text im.2) (response_of c)).
Proof.
  intros Hc. apply rmap_Ok, Forall_forall. intros [id m] Hin.
  apply elem_of_response_of in Hin as [e [He <-]].
  apply has_str_source_Ok. by apply (Hc id).
Qed.

Lemma doc_sources_Ok docs :
  sourced_docs docs ->
  rmap (fun doc => source_of (metadata doc)) docs
  = Ok (map (fun doc => source_text (metadata doc)) docs).
Proof.
  intros Hdocs. apply rmap_Ok. eapply Forall_impl; [exact Hdocs|].
  intros doc. apply has_str_source_Ok.
Qed.

(** The sources of the index, as [create_db] collects them. *)
Lemma elem_of_indexed_sources (c : gmap pystr Entry) s :
  s ∈ sorted_set (map (fun im => source_text im.2) (response_of c))
  <-> exists id e, c !! id = Some e /\ source_text (e_metadata e) = s.
Proof.
  rewrite elem_of_sorted_set, list_elem_of_In, in_map_iff. split.
  - intros [[id m] [<- Hin]].
    apply list_elem_of_In, elem_of_response_of in Hin as [e [He <-]]. eauto.
  - intros [id [e [He <-]]]. exists (id, e_metadata e). split; [done|].
    apply list_elem_of_In, elem_of_response_of. eauto.
Qed.

Lemma elem_of_doc_sources docs s :
  s ∈ map (fun doc => source_text (metadata doc)) docs
  <-> exists doc, doc ∈ docs /\ source_text (metadata doc) = s.
Proof.
  rewrite list_elem_of_In, in_map_iff.
  split; intros [doc [? ?]]; exists doc; by rewrite ?list_elem_of_In in *.
Qed.

(** *** The FAIL policy *)







End IndexerProofs.

(** *** The policies on an example *)

Lemma store_with_doc_sourced : sourced_entries (entries store_with_doc).
Proof. apply (bool_decide_unpack _). vm_compute. reflexivity. Defined.

Lemma store_with_doc_collection :
  is_Some (default ∅ store_with_doc !! docs_db_collection).
Proof. apply (bool_decide_unpack _). vm_compute. reflexivity. Defined.

Lemma create_db_collection_gate_witness :
  create_db [doc_html; other_html] false REPLACE
    (Some (default ∅ store_with_doc))
  = (Raise (RuntimeError collection_exists_message),
     Some (default ∅ store_with_doc), [ListCollections]).
Proof.
  apply (create_db_collection_gate [doc_html; other_html] REPLACE
           (default ∅ store_with_doc)).
  exact store_with_doc_collection.
Defined.





(** *** The REPLACE policy *)

Section ReplacePolicy.

Context `{Services}.
Local Open Scope indexer_scope.

Lemma lookup_foldr_delete_ids (c : gmap pystr Entry) ids id :
  foldr delete c ids !! id = if decide (id ∈ ids) then None else c !! id.
Proof.
  induction ids as [|i ids IH]; cbn [foldr].
  - destruct (decide (id ∈ [])) as [Hin|]; [|done].
    by apply elem_of_nil in Hin.
  - destruct (decide (i = id)) as [->|Hne].
    + rewrite lookup_delete_eq.
      destruct (decide (id ∈ id :: ids)) as [|Hnin]; [done|].
      exfalso. apply Hnin. left.
    + rewrite lookup_delete_ne, IH by done.
      destruct (decide (id ∈ ids)) as [Hin|Hin];
        destruct (decide (id ∈ i :: ids)) as [Hin'|Hin']; try done.
      * exfalso. apply Hin'. by right.
      * exfalso. apply elem_of_cons in Hin' as [->|?]; done.
Qed.

(** After an upsert an id holds the entry of a document of the batch
    with that id, or what it held before when the batch has none. *)
Lemma upsert_lookup (c : gmap pystr Entry) batch id :
  (upsert c batch !! id = c !! id /\ forall d, (id, d) ∉ batch)
  \/ exists d, (id, d) ∈ batch /\ upsert c batch !! id = Some (entry_of d).
Proof.
  revert c. induction batch as [|[i d0] batch IH]; intros c.
  - left. split; [done|]. intros d. apply not_elem_of_nil.
  - cbn [upsert fold_left fst snd].
    change (fold_left _ batch ?c') with (upsert c' batch).
    destruct (IH (<[i := entry_of d0]> c)) as [[Hsame Hnot]|[d [Hin Hd]]].
    + destruct (decide (i = id)) as [->|Hne].
      * right. exists d0. split; [left|].
        by rewrite Hsame, lookup_insert_eq.
      * left. split; [by rewrite Hsame, lookup_insert_ne|].
        intros d. rewrite elem_of_cons. intros [[= -> _]|?]; [done|].
        by apply (Hnot d).
    + right. exists d. split; [by right|done].
Qed.

Lemma elem_of_identified (cs : list Document) id d :
  (id, d) ∈ zip (map stable_hash cs) cs <-> d ∈ cs /\ id = stable_hash d.
Proof.
  induction cs as [|c cs IH]; simpl.
  - rewrite !elem_of_nil. tauto.
  - rewrite !elem_of_cons, IH. split.
    + intros [[= -> ->]|[? ?]]; auto.
    + intros [[->|?] ->]; auto.
Qed.

Lemma dict_get_set_ne {V} (k k' : pystr) (v : V) (d : pydict V) :
  k <> k' -> dict_get k (dict_set k' v d) = dict_get k d.
Proof.
  intros Hne. induction d as [|[k0 v0] d IH]; simpl.
  - by rewrite decide_False.
  - destruct (decide (k' = k0)) as [->|]; simpl.
    + by rewrite !decide_False.
    + by rewrite IH.
Qed.

(** A chunk has the source of its document. *)
Lemma chunk_source doc chunk :
  chunk ∈ chunks_of doc ->
  source_of (metadata chunk) = source_of (metadata doc).
Proof.
  unfold chunks_of. rewrite list_elem_of_In, in_map_iff.
  intros [[i t] [<- _]]. unfold source_of, metadata_source. simpl.
  rewrite dict_get_set_ne; [done|].
  intros Heq. vm_compute in Heq. discriminate.
Qed.

Lemma elem_of_chunks docs chunk :
  chunk ∈ chunks docs <-> exists doc, doc ∈ docs /\ chunk ∈ chunks_of doc.
Proof.
  unfold chunks. rewrite list_elem_of_In, in_flat_map.
  split; intros [doc [? ?]]; exists doc; by rewrite ?list_elem_of_In in *.
Qed.

Lemma chunks_sourced docs :
  sourced_docs docs -> sourced_docs (chunks docs).
Proof.
  unfold sourced_docs. rewrite !Forall_forall. intros Hdocs chunk Hin.
  apply elem_of_chunks in Hin as [doc [Hdoc Hin]].
  unfold has_str_source. rewrite (chunk_source doc chunk Hin).
  by apply Hdocs.
Qed.

(** Equal metadata have the same source. *)
Lemma dict_eqb_source m1 m2 s :
  dict_eqb m1 m2 = true -> source_of m1 = Ok s -> source_of m2 = Ok s.
Proof.
  intros Heq. unfold source_of, metadata_source.
  destruct (dict_get (py "source") m1) as [v|] eqn:Hv; [|done].
  apply dict_get_Some_elem_of in Hv.
  by rewrite (dict_eqb_lookup _ _ _ _ Heq Hv).
Qed.


Lemma elem_of_replaced_ids (found : list Document)
    (c : gmap pystr Entry) (id : pystr) :
  id ∈ replaced_ids found c <->
  exists e doc,
    c !! id = Some e /\ doc ∈ found
    /\ source_text (e_metadata e) = source_text (metadata doc).
Proof.
  unfold replaced_ids. rewrite list_elem_of_In, in_map_iff. split.
  - intros [[id' m] [<- Hin]]. apply filter_In in Hin as [Hin Hsrc].
    apply list_elem_of_In, elem_of_response_of in Hin as [e [He <-]].
    apply bool_decide_eq_true in Hsrc.
    apply elem_of_doc_sources in Hsrc as [doc [Hdoc Hsrc]]. eauto 10.
  - intros [e [doc [He [Hdoc Hsrc]]]]. exists (id, e_metadata e).
    split; [done|]. apply filter_In. split.
    + apply list_elem_of_In, elem_of_response_of. eauto.
    + apply bool_decide_eq_true. simpl. rewrite Hsrc.
      apply elem_of_doc_sources. eauto.
Qed.








End ReplacePolicy.


(** The edit shortened [doc.html] from three chunks to one: REPLACE
    retires the three old entries and leaves the one new. *)
Example create_db_replace_edited :
  map fst
    (map_to_list
       (entries (create_db [doc_html_edited] true REPLACE store_with_doc).1.2))
  = [py "a72e4bc6b9a55c26fccfca1d3d0a189292e30f52"].
Proof. vm_compute. reflexivity. Qed.


(** *** An empty batch *)

Section EmptyBatch.

Context `{Services}.
Local Open Scope indexer_scope.

Lemma bind_inv_Ok {A B} (m : M A) (f : A -> M B) st (b : B) st' evs :
  bind m f st = (Ok b, st', evs) ->
  exists a st1 ev1 ev2,
    m st = (Ok a, st1, ev1) /\ f a st1 = (Ok b, st', ev2)
    /\ evs = ev1 ++ ev2.
Proof.
  unfold bind. destruct (m st) as [[[a|e] st1] ev1]; [|done].
  destruct (f a st1) as [[r st2] ev2] eqn:Hf.
  intros [= -> -> <-]. eauto 10.
Qed.

Lemma collection_gate_inv exist_ok st r st' evs :
  collection_gate exist_ok st = (r, st', evs) ->
  st' = st /\ no_indexing evs.
Proof.
  unfold collection_gate, bind, directory_exists, list_collections, ret, raise.
  destruct exist_ok, st as [colls|]; cbn [negb];
    try (intros [= <- <- <-]; done).
  destruct (bool_decide _); intros [= <- <- <-]; done.
Qed.

Lemma rfilter_none {A} (p : A -> result bool) xs ys :
  (forall x b, p x = Ok b -> b = false) ->
  rfilter p xs = Ok ys -> ys = [].
Proof.
  intros Hp. revert ys. induction xs as [|x xs IH]; simpl; intros ys.
  - by intros [= <-].
  - destruct (p x) as [b|] eqn:Hb; [|done]. simpl.
    destruct (rfilter p xs) as [ys'|]; [|done]. simpl.
    rewrite (Hp x b Hb). intros [= <-]. by apply IH.
Qed.

Lemma apply_on_match_empty on_match indexed docs st st' evs :
  apply_on_match on_match indexed docs st = (Ok [], st', evs) ->
  entries st' = entries st /\ no_indexing evs.
Proof.
  destruct on_match; unfold apply_on_match.
  - unfold lift. by intros [= _ <- <-].
  - intros Hrun.
    apply bind_inv_Ok in Hrun as (resp & st1 & ev1 & ev1' & Hget & Hrun & ->).
    injection Hget as <- <- <-.
    apply bind_inv_Ok in Hrun as (sel & st2 & ev2 & ev2' & Hsel & Hrun & ->).
    unfold lift in Hsel. injection Hsel as Hsel <- <-.
    apply bind_inv_Ok in Hrun as (? & st3 & ev3 & ev3' & Hdel & Hrun & ->).
    injection Hdel as <- <-. injection Hrun as -> <- <-.
    apply rfilter_none in Hsel as ->.
    + subst ev3. cbn [map foldr]. by rewrite entries_set_entries.
    + intros im b. simpl. destruct (source_of im.2); [|done]. simpl.
      intros [= <-]. reflexivity.
  - unfold bind, lift, ret, raise.
    destruct (rmap _ docs) as [doc_sources|]; [|done].
    destruct (filter _ _); [|done]. by intros [= _ <- <-].
Qed.

Lemma select_batch_empty found exist_ok on_match st st' evs :
  select_batch found exist_ok on_match st = (Ok [], st', evs) ->
  entries st' = entries st /\ no_indexing evs.
Proof.
  unfold select_batch. intros Hrun.
  apply bind_inv_Ok in Hrun as (? & st1 & ev1 & ev1' & Hgate & Hrun & ->).
  apply collection_gate_inv in Hgate as [-> Hev1].
  apply bind_inv_Ok in Hrun as (ix & st2 & ev2 & ev2' & Hix & Hrun & ->).
  rewrite indexed_doc_filepaths_run in Hix. injection Hix as _ <- <-.
  apply bind_inv_Ok in Hrun as (docs & st3 & ev3 & ev3' & Hload & Hrun & ->).
  injection Hload as <- <- <-.
  apply apply_on_match_empty in Hrun as [Hentries Hev].
  rewrite Hentries, entries_set_entries. split; [done|].
  unfold no_indexing in *. rewrite !forallb_app, Hev1, Hev. done.
Qed.

(** C10. When the batch that remains after the collision policy is
    empty, [create_db] ends there: it succeeds with the store and the
    calls of the selection, none of which is a split, an upsert or a
    persist, and the entries of the index are those it started
    with. *)
Theorem create_db_empty_batch (found : list Document) (exist_ok : bool)
    (on_match : OnMatchAction) (st st' : Chroma) (evs : list event) :
  select_batch found exist_ok on_match st = (Ok [], st', evs) ->
  create_db found exist_ok on_match st = (Ok tt, st', evs)
  /\ no_indexing evs
  /\ entries st' = entries st.
Proof.
  intros Hrun. split.
  - unfold create_db. erewrite bind_Ok by exact Hrun.
    simpl. by rewrite app_nil_r.
  - apply select_batch_empty in Hrun. tauto.
Qed.

(** The two ways to an empty batch: nothing is found, or IGNORE
    drops every document because its source is indexed. *)
Lemma apply_on_match_ignore indexed docs st :
  sourced_docs docs ->
  apply_on_match IGNORE indexed docs st
  = (Ok (List.filter
           (fun doc => negb (bool_decide (source_text (metadata doc) ∈ indexed)))
           docs),
     st, []).
Proof.
  intros Hdocs. unfold apply_on_match, lift.
  erewrite rfilter_Ok; [reflexivity|].
  eapply Forall_impl; [exact Hdocs|]. intros doc Hdoc. simpl.
  by rewrite (has_str_source_Ok _ Hdoc).
Qed.

End EmptyBatch.

Lemma create_db_empty_batch_witness :
  create_db [doc_html] true IGNORE store_with_doc
  = (Ok tt, (select_batch [doc_html] true IGNORE store_with_doc).1.2,
     (select_batch [doc_html] true IGNORE store_with_doc).2)
  /\ no_indexing (select_batch [doc_html] true IGNORE store_with_doc).2
  /\ entries (select_batch [doc_html] true IGNORE store_with_doc).1.2
     = entries store_with_doc.
Proof.
  apply (create_db_empty_batch [doc_html] true IGNORE store_with_doc).
  assert ((select_batch [doc_html] true IGNORE store_with_doc).1.1 = Ok [])
    as Hbatch by (vm_compute; reflexivity).
  destruct (select_batch [doc_html] true IGNORE store_with_doc)
    as [[batch st'] evs].
  cbn [fst snd] in *. by rewrite Hbatch.
Defined.

(** Every document of the set is indexed already: IGNORE leaves
    nothing to index, and the run ends after the loading. *)
Example create_db_all_indexed :
  (create_db [doc_html] true IGNORE store_with_doc).1.1 = Ok tt
  /\ (create_db [doc_html] true IGNORE store_with_doc).2
     = [GetOrCreateCollection; Get; Load].
Proof. split; vm_compute; reflexivity. Qed.

(** Nothing is found: REPLACE deletes no id. *)
Example create_db_nothing_found :
  (create_db [] true REPLACE store_with_doc).1.1 = Ok tt
  /\ (create_db [] true REPLACE store_with_doc).2
     = [GetOrCreateCollection; Get; Load; Get; Delete []].
Proof. split; vm_compute; reflexivity. Qed.

(** *** The IGNORE policy, run twice *)

Section IgnoreTwice.

Context `{Services}.
Local Open Scope indexer_scope.

Lemma gate_closed_false exist_ok st :
  gate_closed exist_ok st = false ->
  exist_ok = true \/ collection_of st = None.
Proof.
  unfold gate_closed. destruct exist_ok; [by left|]. simpl.
  intros Hc. right. apply bool_decide_eq_false in Hc.
  destruct (collection_of st); [|done]. exfalso. apply Hc. eauto.
Qed.

Lemma gate_closed_true exist_ok st :
  gate_closed exist_ok st = true ->
  exist_ok = false
  /\ exists colls, st = Some colls /\ is_Some (colls !! docs_db_collection).
Proof.
  unfold gate_closed. rewrite andb_true_iff, negb_true_iff.
  intros [-> Hc]. split; [done|]. apply bool_decide_eq_true in Hc.
  destruct st as [colls|]; [|by destruct Hc]. by exists colls.
Qed.

(** The store [create_db] leaves under IGNORE. *)
Lemma create_db_ignore_closed found exist_ok st :
  gate_closed exist_ok st = true ->
  (create_db found exist_ok IGNORE st).1.2 = st.
Proof.
  intros Hc. apply gate_closed_true in Hc as [-> [colls [-> Hc]]].
  unfold create_db. erewrite bind_Raise; [done|].
  by apply select_batch_gate.
Qed.

Lemma create_db_ignore_open found exist_ok st :
  gate_closed exist_ok st = false ->
  (create_db found exist_ok IGNORE st).1.2
  = match ignore_batch (entries st) found with
    | Ok batch =>
        set_entries (upsert (entries st) (identified (chunks batch))) st
    | Raise _ => set_entries (entries st) st
    end.
Proof.
  intros Hopen. apply gate_closed_false in Hopen.
  unfold create_db, select_batch, bind.
  rewrite collection_gate_open, indexed_doc_filepaths_run by done.
  unfold ignore_batch.
  destruct (rmap _ (response_of (entries st))) as [sources|]; [|done].
  cbn [rbind load apply_on_match lift].
  destruct (rfilter _ found) as [batch|]; [|done].
  destruct batch as [|doc batch]; [done|].
  cbn [index_batch]. unfold bind, split_documents, add_documents, persist, emit.
  cbn [fst snd]. by rewrite entries_set_entries, set_entries_twice.
Qed.

Lemma rfilter_Ok_inv {A} (p : A -> result bool) (xs ys : list A) :
  rfilter p xs = Ok ys ->
  Forall (fun x => exists b, p x = Ok b) xs
  /\ forall x, x ∈ ys <-> x ∈ xs /\ p x = Ok true.
Proof.
  revert ys. induction xs as [|x xs IH]; simpl; intros ys.
  - intros [= <-]. split; [constructor|]. intros x. rewrite elem_of_nil. tauto.
  - destruct (p x) as [b|] eqn:Hb; [|done]. simpl.
    destruct (rfilter p xs) as [ys'|]; [|done]. simpl.
    intros [= <-]. destruct (IH ys' eq_refl) as [Hall Hin].
    split; [constructor; eauto|].
    intros y. destruct b.
    + rewrite !elem_of_cons, Hin. split.
      * intros [->|[? ?]]; auto.
      * intros [[->|?] ?]; auto.
    + rewrite elem_of_cons, Hin. split.
      * intros [? ?]; auto.
      * intros [[->|?] ?]; [congruence|auto].
Qed.

Lemma response_sources_inv (c : gmap pystr Entry) sources :
  rmap (fun im => source_of im.2) (response_of c) = Ok sources ->
  sourced_entries c
  /\ sources = map (fun im => source_text im.2) (response_of c).
Proof.
  intros Hsources.
  assert (sourced_entries c) as Hc.
  { intros id e He.
    apply rmap_Ok_inv in Hsources.
    assert ((id, e_metadata e) ∈ response_of c) as Hin
      by (apply elem_of_response_of; eauto).
    apply list_elem_of_lookup in Hin as [i Hi].
    destruct (Forall2_lookup_l _ _ _ _ _ Hsources Hi) as [s [_ Hs]].
    by apply source_of_has_str_source in Hs as [? _]. }
  split; [done|]. rewrite response_sources_Ok in Hsources by done.
  by injection Hsources.
Qed.

(** What IGNORE keeps: the documents whose source no entry has. *)
Lemma ignore_batch_inv (c : gmap pystr Entry) (found batch : list Document) :
  ignore_batch c found = Ok batch ->
  sourced_entries c /\ sourced_docs found
  /\ forall doc,
      doc ∈ batch <->
      doc ∈ found
      /\ ~ exists id e,
            c !! id = Some e
            /\ source_text (e_metadata e) = source_text (metadata doc).
Proof.
  unfold ignore_batch.
  destruct (rmap _ (response_of c)) as [sources|] eqn:Hsources; [|done].
  cbn [rbind]. intros Hbatch.
  apply response_sources_inv in Hsources as [Hc ->].
  apply rfilter_Ok_inv in Hbatch as [Hall Hin].
  assert (sourced_docs found) as Hfound.
  { unfold sourced_docs. eapply Forall_impl; [exact Hall|].
    intros doc [b Hb]. unfold has_str_source.
    by destruct (source_of (metadata doc)). }
  split; [done|]. split; [done|].
  intros doc. rewrite Hin. split.
  - intros [Hdoc Hkeep]. split; [done|].
    unfold sourced_docs in Hfound. rewrite Forall_forall in Hfound.
    rewrite (has_str_source_Ok _ (Hfound doc Hdoc)) in Hkeep.
    cbn [rbind] in Hkeep. injection Hkeep as Hkeep.
    apply negb_true_iff, bool_decide_eq_false in Hkeep.
    by rewrite elem_of_indexed_sources in Hkeep.
  - intros [Hdoc Hfresh]. split; [done|].
    unfold sourced_docs in Hfound. rewrite Forall_forall in Hfound.
    rewrite (has_str_source_Ok _ (Hfound doc Hdoc)). cbn [rbind].
    f_equal. apply negb_true_iff, bool_decide_eq_false.
    by rewrite elem_of_indexed_sources.
Qed.

Lemma elem_of_dom_upsert (c : gmap pystr Entry) batch id :
  id ∈ dom (upsert c batch) <-> id ∈ dom c \/ exists d, (id, d) ∈ batch.
Proof.
  rewrite !elem_of_dom.
  destruct (upsert_lookup c batch id) as [[-> Hnot]|[d [Hin ->]]].
  - split; [by left|]. intros [?|[d Hd]]; [done|]. by destruct (Hnot d).
  - split; [|done]. intros _. right. eauto.
Qed.

Lemma dom_upsert_known (c : gmap pystr Entry) batch :
  (forall id d, (id, d) ∈ batch -> id ∈ dom c) ->
  dom (upsert c batch) = dom c.
Proof.
  intros Hknown. apply set_eq. intros id. rewrite elem_of_dom_upsert.
  split; [|by left]. intros [?|[d Hd]]; eauto.
Qed.

Lemma index_consistent_source (c : gmap pystr Entry) batch chunk e :
  index_consistent c batch = true ->
  chunk ∈ batch -> c !! stable_hash chunk = Some e ->
  has_str_source (metadata chunk) = true ->
  source_text (e_metadata e) = source_text (metadata chunk).
Proof.
  unfold index_consistent. rewrite forallb_forall.
  intros Hcons Hin He Hsrc. apply list_elem_of_In, Hcons in Hin.
  rewrite He in Hin. apply has_str_source_Ok in Hsrc.
  apply (dict_eqb_source _ _ _ Hin) in Hsrc.
  by apply source_of_has_str_source in Hsrc as [_ ?].
Qed.

(** The chunks a second IGNORE run would index are in the index
    after the first. *)
Lemma ignore_second_batch_known (c : gmap pystr Entry)
    (found batch1 batch2 : list Document) chunk :
  index_consistent c (chunks found) = true ->
  ignore_batch c found = Ok batch1 ->
  ignore_batch (upsert c (identified (chunks batch1))) found = Ok batch2 ->
  chunk ∈ chunks batch2 ->
  stable_hash chunk ∈ dom (upsert c (identified (chunks batch1))).
Proof.
  intros Hcons H1 H2 Hchunk.
  apply ignore_batch_inv in H1 as (Hc & Hfound & Hin1).
  apply ignore_batch_inv in H2 as (_ & _ & Hin2).
  apply elem_of_chunks in Hchunk as [doc [Hdoc Hchunk]].
  apply Hin2 in Hdoc as [Hdoc Hfresh].
  apply elem_of_dom_upsert. right. exists chunk.
  apply elem_of_identified. split; [|done].
  apply elem_of_chunks. exists doc. split; [|done].
  apply Hin1. split; [done|].
  intros (id & e & He & Hsrc). apply Hfresh.
  destruct (upsert_lookup c (identified (chunks batch1)) id)
    as [[Hsame _]|[d' [Hd' Hnew]]].
  - exists id, e. by rewrite Hsame.
  - exists id, (entry_of d'). split; [done|]. cbn [entry_of e_metadata].
    apply elem_of_identified in Hd' as [Hd' ->].
    assert (d' ∈ chunks found) as Hd'found.
    { apply elem_of_chunks in Hd' as [doc' [Hdoc' Hd']].
      apply elem_of_chunks. exists doc'. split; [|done].
      by apply Hin1 in Hdoc' as [? _]. }
    rewrite <- Hsrc. symmetry.
    apply (index_consistent_source c (chunks found)); try done.
    pose proof (chunks_sourced found Hfound) as Hsourced.
    unfold sourced_docs in Hsourced. rewrite Forall_forall in Hsourced.
    by apply Hsourced.
Qed.

(** X1. Indexing a document set under IGNORE and then indexing the same
    set again under IGNORE, with the same [exist_ok], leaves the ids
    and the number of the entries as they are after the first run.
    The first run may start from any store, provided no chunk of the
    set has the identity of an entry with other metadata. *)
Theorem create_db_ignore_idempotent (found : list Document)
    (exist_ok : bool) (st : Chroma) :
  index_consistent (entries st) (chunks found) = true ->
  let st1 := (create_db found exist_ok IGNORE st).1.2 in
  let st2 := (create_db found exist_ok IGNORE st1).1.2 in
  dom (entries st2) = dom (entries st1)
  /\ size (entries st2) = size (entries st1).
Proof.
  intros Hcons st1 st2.
  assert (dom (entries st2) = dom (entries st1)) as Hdom;
    [|split; [done|]; by rewrite <- !size_dom, Hdom].
  unfold st2.
  destruct (gate_closed exist_ok st) eqn:Hgate.
  { assert (st1 = st) as -> by (by apply create_db_ignore_closed).
    by rewrite create_db_ignore_closed. }
  assert (exists c1,
             st1 = set_entries c1 st
             /\ forall batch1,
                 ignore_batch (entries st) found = Ok batch1 ->
                 c1 = upsert (entries st) (identified (chunks batch1)))
    as (c1 & Hst1 & Hc1).
  { unfold st1. rewrite create_db_ignore_open by done.
    destruct (ignore_batch (entries st) found) as [batch1|e] eqn:Hb.
    - eexists. split; [reflexivity|]. by intros ? [= <-].
    - eexists. split; [reflexivity|]. by intros ? [=]. }
  rewrite Hst1.
  destruct exist_ok.
  - rewrite create_db_ignore_open
      by (unfold gate_closed; done).
    rewrite entries_set_entries, set_entries_twice.
    destruct (ignore_batch c1 found) as [batch2|e2] eqn:Hb2;
      rewrite !entries_set_entries; [|done].
    destruct (ignore_batch (entries st) found) as [batch1|e1] eqn:Hb1.
    + rewrite (Hc1 batch1 eq_refl) in *.
      apply dom_upsert_known. intros id d Hd.
      apply elem_of_identified in Hd as [Hd ->].
      by apply (ignore_second_batch_known (entries st) found batch1 batch2).
    + exfalso.
      assert (c1 = entries st) as ->.
      { unfold st1 in Hst1. rewrite create_db_ignore_open in Hst1 by done.
        rewrite Hb1 in Hst1.
        apply (f_equal entries) in Hst1.
        by rewrite !entries_set_entries in Hst1. }
      congruence.
  - rewrite create_db_ignore_closed; [done|].
    unfold gate_closed, collection_of, set_entries. cbn [negb andb].
    apply bool_decide_eq_true. rewrite lookup_insert_eq. eauto.
Qed.

End IgnoreTwice.

(** *** The outcome of a run *)

Section Outcome.

Context `{Services}.
Local Open Scope indexer_scope.

Lemma index_batch_opened (docs : list Document) (c : gmap pystr Entry)
    (st : Chroma) :
  (index_batch docs (set_entries c st)).1
  = (Ok tt, set_entries (upsert c (identified (chunks docs))) st).
Proof.
  destruct docs as [|doc docs]; [reflexivity|].
  unfold index_batch, bind, split_documents, add_documents, persist, emit.
  cbn [fst snd]. by rewrite entries_set_entries, set_entries_twice.
Qed.

Lemma vs_get_opened (c : gmap pystr Entry) (st : Chroma) :
  vs_get (set_entries c st) = (Ok (response_of c), set_entries c st, [Get]).
Proof. unfold vs_get. by rewrite entries_set_entries. Qed.

Lemma vs_delete_opened (ids : list pystr) (c : gmap pystr Entry)
    (st : Chroma) :
  vs_delete ids (set_entries c st)
  = (Ok tt, set_entries (foldr delete c ids) st, [Delete ids]).
Proof. unfold vs_delete. by rewrite entries_set_entries, set_entries_twice. Qed.

(** Past the gate, the result and the store of [create_db] are those of
    [outcome] on the entries of the collection. *)
Lemma create_db_open_outcome (found : list Document) (exist_ok : bool)
    (on_match : OnMatchAction) (st : Chroma) :
  gate_closed exist_ok st = false ->
  (create_db found exist_ok on_match st).1
  = ((outcome on_match (entries st) found).1,
     set_entries (outcome on_match (entries st) found).2 st).
Proof.
  intros Hopen. apply gate_closed_false in Hopen.
  unfold create_db, select_batch, bind.
  rewrite collection_gate_open, indexed_doc_filepaths_run by done.
  unfold outcome, ignore_batch, replace_selection, fail_matches.
  destruct (rmap _ (response_of (entries st))) as [sources|];
    [|by destruct on_match].
  cbn [rbind load]. destruct on_match; unfold apply_on_match.
  - cbn [lift]. destruct (rfilter _ found) as [batch|]; [|done].
    pose proof (index_batch_opened batch (entries st) st) as Hidx.
    destruct (index_batch batch _) as [[r st'] evs]. cbn [fst snd] in *.
    by injection Hidx as -> ->.
  - unfold bind. rewrite vs_get_opened. cbn [lift].
    destruct (rfilter _ (response_of (entries st))) as [selected|]; [|done].
    rewrite vs_delete_opened. cbn [ret].
    pose proof (index_batch_opened found
                  (foldr delete (entries st) (map fst selected)) st) as Hidx.
    destruct (index_batch found _) as [[r st'] evs]. cbn [fst snd] in *.
    by injection Hidx as -> ->.
  - unfold bind. cbn [lift].
    destruct (rmap _ found) as [doc_sources|]; [|done]. cbn [rbind].
    destruct (filter _ (remove_dups doc_sources)) as [|s matches]; [|done].
    cbn [ret].
    pose proof (index_batch_opened found (entries st) st) as Hidx.
    destruct (index_batch found _) as [[r st'] evs]. cbn [fst snd] in *.
    by injection Hidx as -> ->.
Qed.

Lemma create_db_closed_outcome (found : list Document) (exist_ok : bool)
    (on_match : OnMatchAction) (st : Chroma) :
  gate_closed exist_ok st = true ->
  create_db found exist_ok on_match st
  = (Raise (RuntimeError collection_exists_message), st, [ListCollections]).
Proof.
  intros Hc. apply gate_closed_true in Hc as [-> [colls [-> Hc]]].
  unfold create_db. apply bind_Raise. by apply select_batch_gate.
Qed.

(** The entries after a run, whatever the gate does. *)
Lemma create_db_entries (found : list Document) (exist_ok : bool)
    (on_match : OnMatchAction) (st : Chroma) :
  entries (create_db found exist_ok on_match st).1.2
  = if gate_closed exist_ok st then entries st
    else (outcome on_match (entries st) found).2.
Proof.
  destruct (gate_closed exist_ok st) eqn:Hgate.
  - by rewrite create_db_closed_outcome.
  - rewrite create_db_open_outcome by done. cbn [snd].
    by rewrite entries_set_entries.
Qed.

End Outcome.

(** *** What a run changes and what it keeps *)

Section Frame.

Context `{Services}.
Local Open Scope indexer_scope.

Lemma create_db_result_open (found : list Document) (exist_ok : bool)
    (on_match : OnMatchAction) (st : Chroma) :
  gate_closed exist_ok st = false ->
  (create_db found exist_ok on_match st).1.1
  = (outcome on_match (entries st) found).1.
Proof. intros Hopen. by rewrite create_db_open_outcome. Qed.





Lemma elem_of_chunks_mono (docs docs' : list Document) chunk :
  (forall doc, doc ∈ docs -> doc ∈ docs') ->
  chunk ∈ chunks docs -> chunk ∈ chunks docs'.
Proof.
  intros Hsub. rewrite !elem_of_chunks. intros [doc [? ?]]. eauto.
Qed.

Lemma ignore_batch_sub (c : gmap pystr Entry) (found batch : list Document) doc :
  ignore_batch c found = Ok batch -> doc ∈ batch -> doc ∈ found.
Proof.
  intros Hb Hdoc. apply ignore_batch_inv in Hb as (_ & _ & Hin).
  by apply Hin in Hdoc as [? _].
Qed.

Lemma upsert_identified_lookup (c : gmap pystr Entry) batch id e :
  upsert c (identified batch) !! id = Some e ->
  c !! id = Some e
  \/ exists chunk, chunk ∈ batch /\ id = stable_hash chunk /\ e = entry_of chunk.
Proof.
  intros He.
  destruct (upsert_lookup c (identified batch) id) as [[Hsame _]|[d [Hd Hnew]]].
  - left. by rewrite <- Hsame.
  - right. exists d. apply elem_of_identified in Hd as [? ?].
    rewrite Hnew in He. by injection He as <-.
Qed.

(** X4. Whatever [create_db] writes is a chunk of a found document under
    its identity: an entry of the index after a run was there before,
    unchanged, or is the entry of such a chunk, stored under the
    [stable_hash] of the chunk. *)
Theorem create_db_writes_chunks (found : list Document) (exist_ok : bool)
    (on_match : OnMatchAction) (st : Chroma) (id : pystr) (e : Entry) :
  entries (create_db found exist_ok on_match st).1.2 !! id = Some e ->
  entries st !! id = Some e
  \/ exists chunk,
       chunk ∈ chunks found /\ id = stable_hash chunk /\ e = entry_of chunk.
Proof.
  rewrite create_db_entries.
  destruct (gate_closed exist_ok st); [by left|].
  unfold outcome. destruct on_match.
  - destruct (ignore_batch (entries st) found) as [batch|] eqn:Hb; [|by left].
    cbn [snd]. intros He.
    apply upsert_identified_lookup in He as [?|[chunk [Hin ?]]]; [by left|].
    right. exists chunk. split; [|done].
    eapply elem_of_chunks_mono; [|exact Hin].
    intros doc. by apply (ignore_batch_sub (entries st) found batch).
  - destruct (replace_selection (entries st) found) as [selected|];
      [|by left].
    cbn [snd]. intros He.
    apply upsert_identified_lookup in He as [He|?]; [|by right].
    left. rewrite lookup_foldr_delete_ids in He. by case_decide.
  - destruct (fail_matches (entries st) found) as [[|s matches]|];
      [|by left..].
    cbn [snd]. intros He.
    apply upsert_identified_lookup in He as [?|?]; [by left|by right].
Qed.

Lemma upsert_lookup_other (c : gmap pystr Entry) batch id :
  (forall chunk, chunk ∈ batch -> stable_hash chunk <> id) ->
  upsert c (identified batch) !! id = c !! id.
Proof.
  intros Hother.
  destruct (upsert_lookup c (identified batch) id) as [[Hsame _]|[d [Hd _]]];
    [done|].
  apply elem_of_identified in Hd as [Hd ->]. by destruct (Hother d Hd).
Qed.

(** X5. IGNORE and FAIL never remove an entry: every id of the index is
    still there after the run, and an entry whose id is not the
    identity of a chunk of the found documents is unchanged. *)
Theorem create_db_ignore_fail_keep (found : list Document) (exist_ok : bool)
    (on_match : OnMatchAction) (st : Chroma) (id : pystr) (e : Entry) :
  on_match <> REPLACE ->
  entries st !! id = Some e ->
  id ∈ dom (entries (create_db found exist_ok on_match st).1.2)
  /\ ((forall chunk, chunk ∈ chunks found -> stable_hash chunk <> id) ->
      entries (create_db found exist_ok on_match st).1.2 !! id = Some e).
Proof.
  intros Hpolicy He. rewrite create_db_entries.
  destruct (gate_closed exist_ok st).
  { split; [|done]. apply elem_of_dom. eauto. }
  assert (id ∈ dom (entries st)) as Hdom by (apply elem_of_dom; eauto).
  unfold outcome. destruct on_match; [|done|].
  - destruct (ignore_batch (entries st) found) as [batch|] eqn:Hb;
      cbn [snd]; [|done].
    split; [apply elem_of_dom_upsert; by left|].
    intros Hother. rewrite upsert_lookup_other; [done|].
    intros chunk Hchunk. apply Hother.
    eapply elem_of_chunks_mono; [|exact Hchunk].
    intros doc. by apply (ignore_batch_sub (entries st) found batch).
  - destruct (fail_matches (entries st) found) as [[|s matches]|];
      cbn [snd]; [|done..].
    split; [apply elem_of_dom_upsert; by left|].
    intros Hother. by rewrite upsert_lookup_other.
Qed.

Lemma selected_entry (c : gmap pystr Entry) (found : list Document)
    (selected : list (pystr * pydict scalar)) (id : pystr) :
  replace_selection c found = Ok selected ->
  id ∈ map fst selected ->
  exists e doc s,
    c !! id = Some e /\ doc ∈ found
    /\ source_of (e_metadata e) = Ok s /\ source_of (metadata doc) = Ok s.
Proof.
  unfold replace_selection.
  destruct (rmap _ (response_of c)) as [sources|]; [|done]. cbn [rbind].
  intros Hsel Hid. apply rfilter_Ok_inv in Hsel as [_ Hin].
  apply list_elem_of_In, in_map_iff in Hid as [[id' m] [<- Him]].
  apply list_elem_of_In, Hin in Him as [Him Htrue].
  apply elem_of_response_of in Him as [e [He <-]].
  cbn [fst snd] in *.
  destruct (source_of (e_metadata e)) as [s|] eqn:Hs; [|done].
  cbn [rbind] in Htrue.
  destruct (rmap _ found) as [doc_sources|] eqn:Hds; [|done].
  cbn [rbind] in Htrue. injection Htrue as Htrue.
  apply bool_decide_eq_true in Htrue.
  apply rmap_Ok_inv in Hds.
  apply list_elem_of_lookup in Htrue as [i Hi].
  destruct (Forall2_lookup_r _ _ _ _ _ Hds Hi) as [doc [Hdoc Hsrc]].
  exists e, doc, s. split; [done|]. split; [|done].
  apply list_elem_of_lookup. eauto.
Qed.

(** X6. REPLACE removes only entries of the sources it loads: an entry
    whose source is the source of no found document, and whose id is
    not the identity of a new chunk, is unchanged by the run. *)
Theorem create_db_replace_keeps_others (found : list Document)
    (exist_ok : bool) (st : Chroma) (id : pystr) (e : Entry) :
  entries st !! id = Some e ->
  (forall doc, doc ∈ found ->
     source_of (metadata doc) <> source_of (e_metadata e)) ->
  (forall chunk, chunk ∈ chunks found -> stable_hash chunk <> id) ->
  entries (create_db found exist_ok REPLACE st).1.2 !! id = Some e.
Proof.
  intros He Hsource Hother. rewrite create_db_entries.
  destruct (gate_closed exist_ok st); [done|].
  unfold outcome.
  destruct (replace_selection (entries st) found) as [selected|] eqn:Hsel;
    [|done].
  cbn [snd]. rewrite upsert_lookup_other, lookup_foldr_delete_ids by done.
  case_decide as Hid; [|done]. exfalso.
  destruct (selected_entry _ _ _ _ Hsel Hid)
    as (e' & doc & s & He' & Hdoc & Hs' & Hs).
  rewrite He in He'. injection He' as <-.
  apply (Hsource doc Hdoc). congruence.
Qed.

Lemma content_addressed_upsert (c : gmap pystr Entry) batch :
  content_addressed c -> content_addressed (upsert c (identified batch)).
Proof.
  intros Hc id e He.
  apply upsert_identified_lookup in He as [He|[chunk [_ [-> ->]]]].
  - by apply (Hc id).
  - by destruct chunk.
Qed.

Lemma content_addressed_delete (c : gmap pystr Entry) ids :
  content_addressed c -> content_addressed (foldr delete c ids).
Proof.
  intros Hc id e. rewrite lookup_foldr_delete_ids.
  case_decide; [done|]. apply (Hc id).
Qed.

(** X7. The index stays content-addressed: if every entry is stored under
    the [stable_hash] of its own metadata before a run, so is every
    entry after it, for every policy, flag and document set. *)
Theorem create_db_content_addressed (found : list Document)
    (exist_ok : bool) (on_match : OnMatchAction) (st : Chroma) :
  content_addressed (entries st) ->
  content_addressed (entries (create_db found exist_ok on_match st).1.2).
Proof.
  intros Hst. rewrite create_db_entries.
  destruct (gate_closed exist_ok st); [done|].
  unfold outcome. destruct on_match.
  - destruct (ignore_batch (entries st) found); cbn [snd]; [|done].
    by apply content_addressed_upsert.
  - destruct (replace_selection (entries st) found); cbn [snd]; [|done].
    by apply content_addressed_upsert, content_addressed_delete.
  - destruct (fail_matches (entries st) found) as [[|s matches]|];
      cbn [snd]; [|done..].
    by apply content_addressed_upsert.
Qed.

Lemma sourced_entries_upsert (c : gmap pystr Entry) batch :
  sourced_entries c -> sourced_docs batch ->
  sourced_entries (upsert c (identified batch)).
Proof.
  intros Hc Hbatch id e He.
  apply upsert_identified_lookup in He as [He|[chunk [Hin [_ ->]]]].
  - by apply (Hc id).
  - unfold sourced_docs in Hbatch. rewrite Forall_forall in Hbatch.
    by apply Hbatch.
Qed.

Lemma sourced_entries_delete (c : gmap pystr Entry) ids :
  sourced_entries c -> sourced_entries (foldr delete c ids).
Proof.
  intros Hc id e. rewrite lookup_foldr_delete_ids.
  case_decide; [done|]. apply (Hc id).
Qed.

Lemma sourced_docs_sub (docs docs' : list Document) :
  (forall doc, doc ∈ docs -> doc ∈ docs') ->
  sourced_docs docs' -> sourced_docs docs.
Proof.
  unfold sourced_docs. rewrite !Forall_forall. eauto.
Qed.

(** X8. When every entry and every found document has a [str] source, so
    has every entry after the run: the next run can read the sources
    of the index (line 72) without a [KeyError]. *)
Theorem create_db_sourced (found : list Document) (exist_ok : bool)
    (on_match : OnMatchAction) (st : Chroma) :
  sourced_entries (entries st) ->
  sourced_docs found ->
  sourced_entries (entries (create_db found exist_ok on_match st).1.2).
Proof.
  intros Hst Hfound. rewrite create_db_entries.
  destruct (gate_closed exist_ok st); [done|].
  pose proof (chunks_sourced found Hfound) as Hchunks.
  unfold outcome. destruct on_match.
  - destruct (ignore_batch (entries st) found) as [batch|] eqn:Hb;
      cbn [snd]; [|done].
    apply sourced_entries_upsert; [done|].
    apply chunks_sourced. apply (sourced_docs_sub batch found); [|done].
    intros doc. by apply (ignore_batch_sub (entries st) found batch).
  - destruct (replace_selection (entries st) found); cbn [snd]; [|done].
    by apply sourced_entries_upsert; [apply sourced_entries_delete|].
  - destruct (fail_matches (entries st) found) as [[|s matches]|];
      cbn [snd]; [|done..].
    by apply sourced_entries_upsert.
Qed.

End Frame.

(** *** A fresh index, and a run without collisions *)

Section Fresh.

Context `{Services}.
Local Open Scope indexer_scope.

Lemma response_of_empty : response_of (∅ : gmap pystr Entry) = [].
Proof. unfold response_of. by rewrite map_to_list_empty. Qed.

Lemma filter_all {A} (q : A -> bool) (xs : list A) :
  Forall (fun x => q x = true) xs -> List.filter q xs = xs.
Proof.
  induction 1 as [|x xs Hx _ IH]; simpl; [done|]. by rewrite Hx, IH.
Qed.

Lemma filter_none (P : pystr -> Prop) `{forall s, Decision (P s)}
    (xs : list pystr) :
  (forall s, s ∈ xs -> ~ P s) -> filter P xs = [].
Proof.
  intros Hnone. destruct (filter P xs) as [|s l] eqn:Hf; [done|].
  assert (s ∈ filter P xs) as Hs by (rewrite Hf; left).
  apply list_elem_of_filter in Hs as [HP Hs]. by destruct (Hnone s Hs).
Qed.

Lemma rfilter_of_rmap {A B} (f : A -> result B) (g : B -> bool)
    (xs : list A) :
  rfilter (fun x => rbind (f x) (fun y => Ok (g y))) xs
  = rbind (rmap f xs) (fun _ =>
      Ok (List.filter
            (fun x => match f x with Ok y => g y | Raise _ => false end) xs)).
Proof.
  induction xs as [|x xs IH]; [done|].
  cbn [rfilter rmap List.filter]. rewrite IH.
  destruct (f x) as [y|]; [|done]. cbn [rbind].
  by destruct (rmap f xs).
Qed.

(** The batch IGNORE keeps and the check FAIL makes, when no found
    document has an indexed source. *)
Lemma ignore_keeps_all (indexed : list pystr) (docs : list Document) :
  (forall doc s, doc ∈ docs -> source_of (metadata doc) = Ok s -> s ∉ indexed) ->
  rfilter (fun doc =>
     rbind (source_of (metadata doc)) (fun s =>
     Ok (negb (bool_decide (s ∈ indexed))))) docs
  = rbind (rmap (fun doc => source_of (metadata doc)) docs) (fun _ => Ok docs).
Proof.
  intros Hfresh.
  rewrite (rfilter_of_rmap (fun doc => source_of (metadata doc))
             (fun s => negb (bool_decide (s ∈ indexed)))).
  destruct (rmap _ docs) as [doc_sources|] eqn:Hds; [|done].
  cbn [rbind]. f_equal. apply filter_all, Forall_forall. intros doc Hdoc.
  destruct (source_of (metadata doc)) as [s|] eqn:Hs.
  - apply negb_true_iff, bool_decide_eq_false. by apply (Hfresh doc).
  - apply rmap_Ok_inv in Hds. apply list_elem_of_lookup in Hdoc as [i Hi].
    destruct (Forall2_lookup_l _ _ _ _ _ Hds Hi) as [s [_ Hs']]. congruence.
Qed.

Lemma fail_finds_none (indexed : list pystr) (docs : list Document)
    (doc_sources : list pystr) :
  (forall doc s, doc ∈ docs -> source_of (metadata doc) = Ok s -> s ∉ indexed) ->
  rmap (fun doc => source_of (metadata doc)) docs = Ok doc_sources ->
  filter (fun s => s ∈ indexed) (remove_dups doc_sources) = [].
Proof.
  intros Hfresh Hds. apply filter_none. intros s Hs.
  rewrite elem_of_remove_dups in Hs. apply rmap_Ok_inv in Hds.
  apply list_elem_of_lookup in Hs as [i Hi].
  destruct (Forall2_lookup_r _ _ _ _ _ Hds Hi) as [doc [Hdoc Hsrc]].
  apply (Hfresh doc); [|done]. apply list_elem_of_lookup. eauto.
Qed.

Lemma apply_on_match_fail_ignore (indexed : list pystr)
    (docs : list Document) (st : Chroma) :
  (forall doc s, doc ∈ docs -> source_of (metadata doc) = Ok s -> s ∉ indexed) ->
  apply_on_match FAIL indexed docs st = apply_on_match IGNORE indexed docs st.
Proof.
  intros Hfresh. unfold apply_on_match, bind, lift.
  rewrite ignore_keeps_all by done.
  destruct (rmap _ docs) as [doc_sources|] eqn:Hds; [|done].
  by rewrite (fail_finds_none indexed docs doc_sources).
Qed.

Lemma bind_ext {A B} (m : M A) (f g : A -> M B) (st : Chroma) :
  (forall a st1 ev1, m st = (Ok a, st1, ev1) -> f a st1 = g a st1) ->
  bind m f st = bind m g st.
Proof.
  intros Hfg. unfold bind. destruct (m st) as [[[a|e] st1] ev1]; [|done].
  by rewrite (Hfg a st1 ev1).
Qed.

(** X9. Without a collision FAIL is IGNORE: when no found document has a
    source that the index holds, the two policies make the same calls
    and end with the same result and the same store. *)
Theorem create_db_fail_is_ignore (found : list Document) (exist_ok : bool)
    (st : Chroma) :
  (forall s, ~ offending found st s) ->
  create_db found exist_ok FAIL st = create_db found exist_ok IGNORE st.
Proof.
  intros Hnone.
  assert (select_batch found exist_ok FAIL st
          = select_batch found exist_ok IGNORE st) as Hsel;
    [|unfold create_db, bind; by rewrite Hsel].
  unfold select_batch.
  apply bind_ext. intros [] st1 ev1 Hgate.
  apply collection_gate_inv in Hgate as [-> _].
  apply bind_ext. intros indexed st2 ev2 Hindexed.
  rewrite indexed_doc_filepaths_run in Hindexed.
  injection Hindexed as Hindexed <- <-.
  apply bind_ext. intros docs st3 ev3 [= <- <- <-].
  apply apply_on_match_fail_ignore. intros doc s Hdoc Hs Hin.
  destruct (rmap _ (response_of (entries st))) as [sources|] eqn:Hsources;
    [|done].
  injection Hindexed as <-.
  apply response_sources_inv in Hsources as [Hst ->].
  apply elem_of_indexed_sources in Hin as (id & e & He & Hse).
  apply (Hnone s). split; [by exists doc|].
  exists id, e. split; [done|]. rewrite <- Hse.
  apply has_str_source_Ok. by apply (Hst id).
Qed.




(** REPLACE looks at the sources of the found documents only while it
    goes through entries of the index (line 96): on an empty index it
    indexes whatever is found, also documents without a source, where
    IGNORE and FAIL raise and index nothing. *)
Lemma create_db_replace_empty_index (found : list Document)
    (exist_ok : bool) (st : Chroma) :
  gate_closed exist_ok st = false ->
  entries st = ∅ ->
  ((create_db found exist_ok REPLACE st).1.1 = Ok tt
   /\ entries (create_db found exist_ok REPLACE st).1.2
      = upsert ∅ (identified (chunks found)))
  /\ (~ sourced_docs found ->
      forall on_match, on_match <> REPLACE ->
        (exists e, (create_db found exist_ok on_match st).1.1 = Raise e)
        /\ entries (create_db found exist_ok on_match st).1.2 = ∅).
Proof.
  intros Hopen Hempty. split.
  - rewrite create_db_open_outcome by done. cbn [fst snd].
    rewrite entries_set_entries, Hempty. unfold outcome, replace_selection.
    by rewrite response_of_empty.
  - intros Hunsourced on_match Hpolicy.
    assert (exists e, rmap (fun doc => source_of (metadata doc)) found = Raise e)
      as [e He].
    { destruct (rmap _ found) as [doc_sources|e] eqn:Hds; [|by exists e].
      destruct Hunsourced. apply rmap_Ok_inv in Hds.
      unfold sourced_docs. apply Forall_forall. intros doc Hdoc.
      apply list_elem_of_lookup in Hdoc as [i Hi].
      destruct (Forall2_lookup_l _ _ _ _ _ Hds Hi) as [s [_ Hs]].
      by apply source_of_has_str_source in Hs as [? _]. }
    rewrite create_db_open_outcome by done. cbn [fst snd].
    rewrite entries_set_entries, Hempty. unfold outcome.
    destruct on_match; [|done|].
    + unfold ignore_batch. rewrite response_of_empty. cbn [rmap rbind].
      rewrite ignore_keeps_all by set_solver. rewrite He. eauto.
    + unfold fail_matches. rewrite response_of_empty. cbn [rmap rbind].
      rewrite He. eauto.
Qed.

End Fresh.

(** ** The factories *)

Ltac model_type_cases :=
  repeat case_bool_decide; subst;
  try match goal with
      | Heq : py _ = py _ |- _ => vm_compute in Heq; discriminate
      end.



(** X12. The two factories agree on the provider: on the same environment
    and model type (the names may differ) they construct an
    embeddings model and a chat model of the same provider, and every
    chat model is constructed with temperature [0.0]. *)
Theorem model_factories_same_provider (environ : Environ)
    (name name' : pystr) (model_type : option pystr)
    (embeddings : EmbeddingsModel) :
  get_embeddings_model environ name model_type = Ok embeddings ->
  exists chat,
    get_chat_model environ name' model_type = Ok chat
    /\ chat_provider chat = embeddings_provider embeddings
    /\ chat_temperature chat = py "0.0".
Proof.
  unfold get_embeddings_model, get_chat_model.
  set (resolved := match model_type with Some t => t | None => _ end).
  clearbody resolved.
  repeat case_bool_decide; intros [= <-]; eexists; (split; [reflexivity|]);
    split; reflexivity.
Qed.

(** Without a model type the environment decides: Azure when
    [OPENAI_API_TYPE] is [azure], whether or not a key is set; else
    OpenAI when [OPENAI_API_KEY] is set; else the local HuggingFace
    model. *)
Lemma get_embeddings_model_environment (environ : Environ) (name : pystr) :
  get_embeddings_model environ name None
  = Ok (if bool_decide (OPENAI_API_TYPE environ = Some (py "azure"))
        then AzureOpenAIEmbeddings name
        else if has_OPENAI_API_KEY environ then OpenAIEmbeddings name
        else HuggingFaceEmbeddings name [(py "normalize_embeddings", true)]
               [(py "device", py "cuda")]).
Proof.
  unfold get_embeddings_model.
  destruct (bool_decide (OPENAI_API_TYPE environ = Some (py "azure")));
    [reflexivity|].
  destruct (has_OPENAI_API_KEY environ); reflexivity.
Qed.


(** ** More on the retriever configuration *)


(** X15. The search configuration holds the applicable parameters that
    were given, under their names, and nothing else: [k] for every
    search type, [score_threshold] for the threshold search, [fetch_k]
    and [lambda_mult] for MMR. A parameter that is [None] is not
    passed, and no key occurs twice. *)
Theorem get_retriever_search_kwargs {VectorStore float : Type}
    (vs : VectorStore) (k : option Z) (st : RetrieverSearchType)
    (score_threshold : option float) (fetch_k : option Z)
    (lambda_mult : option float) (r : VectorStoreRetriever VectorStore float) :
  (get_retriever vs k st score_threshold fetch_k lambda_mult).2 = Ok r ->
  dict_get (py "k") (search_kwargs r) = KInt <$> k
  /\ dict_get (py "score_threshold") (search_kwargs r)
     = KFloat <$> applicable
         (bool_decide (st = similarity_score_threshold)) score_threshold
  /\ dict_get (py "fetch_k") (search_kwargs r)
     = KInt <$> applicable (bool_decide (st = mmr)) fetch_k
  /\ dict_get (py "lambda_mult") (search_kwargs r)
     = KFloat <$> applicable (bool_decide (st = mmr)) lambda_mult
  /\ dict_wf (search_kwargs r)
  /\ forall key, key ∈ map fst (search_kwargs r) ->
       key ∈ [py "k"; py "score_threshold"; py "fetch_k"; py "lambda_mult"].
Proof.
  unfold get_retriever.
  destruct st, k as [k|], score_threshold as [t|], fetch_k as [n|],
    lambda_mult as [x|]; cbn [snd]; intros [= <-];
    (split; [vm_compute; reflexivity|]);
    (split; [vm_compute; reflexivity|]);
    (split; [vm_compute; reflexivity|]);
    (split; [vm_compute; reflexivity|]);
    (split; [apply (bool_decide_unpack _); vm_compute; reflexivity|]);
    intros key Hkey; vm_compute in Hkey; vm_compute;
    repeat (apply elem_of_cons in Hkey as [->|Hkey];
            [set_solver|]); by apply elem_of_nil in Hkey.
Qed.

(** ** More on the context block and the chain *)

Lemma rmap_Raise_inv {A B} (f : A -> result B) (xs : list A) (e : exn) :
  rmap f xs = Raise e -> exists x, x ∈ xs /\ f x = Raise e.
Proof.
  induction xs as [|x xs IH]; [done|]. cbn [rmap].
  destruct (f x) as [y|e'] eqn:Hx; cbn [rbind].
  - destruct (rmap f xs) as [ys|e'] eqn:Hxs; [done|]. cbn [rbind].
    intros [= ->]. destruct (IH eq_refl) as [x' [? ?]].
    exists x'. split; [by right|done].
  - intros [= ->]. exists x. split; [left|done].
Qed.

Lemma format_docs_Ok_iff (docs : list Document) :
  (exists s, format_docs docs = Ok s) <-> Forall has_source docs.
Proof.
  split.
  - intros [s Hs]. unfold format_docs in Hs.
    destruct (rmap _ docs) as [blocks|] eqn:Hblocks; [|done].
    apply rmap_Ok_inv in Hblocks. apply Forall_forall. intros doc Hdoc.
    apply list_elem_of_lookup in Hdoc as [i Hi].
    destruct (Forall2_lookup_l _ _ _ _ _ Hblocks Hi) as [block [_ Hb]].
    unfold has_source. unfold metadata_source in Hb.
    by destruct (dict_get (py "source") (metadata doc)).
  - intros Hsrc. eexists. by apply format_docs_blocks.
Qed.

(** X16. [format_docs] raises exactly when a document has no [source] in
    its metadata, and what it raises is the [KeyError] of that key. *)
Theorem format_docs_raises_iff (docs : list Document) :
  (format_docs docs = Raise (KeyError (py "source"))
   <-> ~ Forall has_source docs)
  /\ forall e, format_docs docs = Raise e -> e = KeyError (py "source").
Proof.
  assert (forall e, format_docs docs = Raise e -> e = KeyError (py "source"))
    as Hkey.
  { intros e. unfold format_docs.
    destruct (rmap _ docs) as [blocks|e'] eqn:Hblocks; [done|].
    cbn [rbind]. intros [= ->].
    apply rmap_Raise_inv in Hblocks as [doc [_ Hdoc]].
    unfold metadata_source in Hdoc.
    destruct (dict_get (py "source") (metadata doc)); [done|].
    cbn [rbind] in Hdoc. by injection Hdoc. }
  split; [|done]. rewrite <- format_docs_Ok_iff. split.
  - intros Hraise [s Hs]. congruence.
  - intros Hnot. destruct (format_docs docs) as [s|e] eqn:Hrun.
    + destruct Hnot. eauto.
    + by rewrite (Hkey e eq_refl).
Qed.

Lemma str_join_app sep (l1 l2 : list pystr) :
  l1 <> [] -> l2 <> [] ->
  str_join sep (l1 ++ l2) = str_join sep l1 ++ sep ++ str_join sep l2.
Proof.
  intros Hl1 Hl2. induction l1 as [|p l1 IH]; [done|].
  destruct l1 as [|p' l1].
  - destruct l2; [done|]. reflexivity.
  - change (str_join sep ((p :: p' :: l1) ++ l2))
      with (p ++ sep ++ str_join sep ((p' :: l1) ++ l2)).
    rewrite IH by done.
    change (str_join sep (p :: p' :: l1))
      with (p ++ sep ++ str_join sep (p' :: l1)).
    by rewrite <- !app_assoc.
Qed.

(** X17. The context block of two retrieved lists in a row: the two blocks
    with one blank line between them; an empty list adds nothing, and
    the block of no documents is the empty string. *)
Theorem format_docs_app (docs1 docs2 : list Document) (s1 s2 : pystr) :
  format_docs docs1 = Ok s1 ->
  format_docs docs2 = Ok s2 ->
  format_docs [] = Ok []
  /\ format_docs (docs1 ++ docs2)
     = Ok (match docs1, docs2 with
           | [], _ => s2
           | _, [] => s1
           | _, _ => s1 ++ [10%N; 10%N] ++ s2
           end).
Proof.
  intros H1 H2. split; [reflexivity|].
  assert (Forall has_source docs1) as Hsrc1
    by (apply format_docs_Ok_iff; eauto).
  assert (Forall has_source docs2) as Hsrc2
    by (apply format_docs_Ok_iff; eauto).
  rewrite format_docs_blocks in H1, H2 by done.
  injection H1 as <-. injection H2 as <-.
  rewrite format_docs_blocks by (by apply Forall_app).
  f_equal. rewrite map_app.
  destruct docs1 as [|d1 docs1]; [done|].
  destruct docs2 as [|d2 docs2]; [by rewrite app_nil_r|].
  by apply str_join_app.
Qed.




(** ** More on the serialization *)

Lemma is_hex_printable c : is_hex c = true -> printable c = true.
Proof.
  unfold is_hex, printable.
  rewrite orb_true_iff, !andb_true_iff, !N.leb_le. lia.
Qed.

Lemma forallb_printable_hex4 n : forallb printable (hex4 n) = true.
Proof.
  pose proof (hex4_is_hex n) as Hhex. rewrite forallb_forall in *.
  intros c Hc. by apply is_hex_printable, Hhex.
Qed.

Lemma escape_char_printable c : forallb printable (Json.escape_char c) = true.
Proof.
  unfold Json.escape_char.
  repeat (case_match; [try reflexivity|]);
    rewrite ?forallb_app, ?forallb_printable_hex4; try reflexivity.
  cbn [forallb]. unfold printable.
  match goal with
  | Hrange : _ && _ = true |- _ =>
      apply andb_true_iff in Hrange as [Hlo Hhi];
      apply Z.leb_le in Hlo, Hhi
  end.
  rewrite andb_true_r, andb_true_iff, !N.leb_le. lia.
Qed.

Lemma forallb_flat_map {A B} (p : B -> bool) (f : A -> list B) (xs : list A) :
  (forall x, forallb p (f x) = true) -> forallb p (flat_map f xs) = true.
Proof.
  intros Hf. induction xs as [|x xs IH]; [done|].
  cbn [flat_map]. by rewrite forallb_app, Hf, IH.
Qed.

Lemma encode_str_printable s : forallb printable (Json.encode_str s) = true.
Proof.
  unfold Json.encode_str. rewrite !forallb_app.
  rewrite (forallb_flat_map _ _ s escape_char_printable). reflexivity.
Qed.

Lemma string_of_uint_printable d :
  forallb printable (py (NilEmpty.string_of_uint d)) = true.
Proof. induction d; cbn; try done. Qed.

Lemma int_repr_printable n : forallb printable (int_repr n) = true.
Proof.
  unfold int_repr. destruct (Z.to_int n) as [d|d]; cbn.
  - destruct d; try reflexivity; apply (string_of_uint_printable (_ d)).
  - destruct d; try reflexivity; apply (string_of_uint_printable (_ d)).
Qed.

Lemma encode_scalar_printable v :
  forallb printable (Json.encode_scalar v) = true.
Proof.
  destruct v as [s|n|[]|]; cbn [Json.encode_scalar]; try reflexivity.
  - apply encode_str_printable.
  - apply int_repr_printable.
Qed.

Lemma str_join_printable sep (parts : list pystr) :
  forallb printable sep = true ->
  Forall (fun p => forallb printable p = true) parts ->
  forallb printable (str_join sep parts) = true.
Proof.
  intros Hsep. induction 1 as [|p parts Hp _ IH]; [done|].
  destruct parts as [|p' parts]; [done|].
  change (str_join sep (p :: p' :: parts))
    with (p ++ sep ++ str_join sep (p' :: parts)).
  by rewrite !forallb_app, Hp, Hsep, IH.
Qed.

Lemma encode_printable s :
  forallb printable s = true -> encode s = map Z.of_N s.
Proof.
  induction s as [|c s IH]; [done|]. cbn [forallb].
  rewrite andb_true_iff. intros [Hc Hs].
  unfold encode in *. cbn [flat_map map]. rewrite IH by done.
  unfold utf8_char, printable in *.
  apply andb_true_iff in Hc as [_ Hc]. apply N.leb_le in Hc.
  destruct (Z.of_N c <? 128) eqn:Hlt; [done|].
  apply Z.ltb_ge in Hlt. lia.
Qed.

(** X19. The serialization that is hashed is printable ASCII, whatever
    characters the metadata hold: every character of it lies between
    space and tilde, so its UTF-8 encoding is the same sequence, one
    byte for each character. *)
Theorem dumps_sorted_ascii (d : pydict scalar) :
  forallb printable (Json.dumps_sorted d) = true
  /\ encode (Json.dumps_sorted d) = map Z.of_N (Json.dumps_sorted d)
  /\ length (encode (Json.dumps_sorted d)) = length (Json.dumps_sorted d).
Proof.
  assert (forallb printable (Json.dumps_sorted d) = true) as Hascii.
  { unfold Json.dumps_sorted. rewrite !forallb_app.
    rewrite str_join_printable; [reflexivity..|].
    apply Forall_forall. intros item Hitem.
    apply list_elem_of_In, in_map_iff in Hitem as [[k v] [<- _]].
    unfold Json.encode_item. cbn [fst snd].
    by rewrite !forallb_app, encode_str_printable, encode_scalar_printable. }
  split; [done|]. rewrite encode_printable by done.
  split; [done|]. by rewrite length_map.
Qed.

(** *** Surrogate pairs *)

Lemma lor_high_surrogate x : 0 <= x < 1024 -> Z.lor 0xd800 x = 0xd800 + x.
Proof.
  intros Hx.
  assert (forallb (fun n => Z.lor 0xd800 (Z.of_nat n) =? 0xd800 + Z.of_nat n)
            (seq 0 1024) = true) as Hall by (vm_compute; reflexivity).
  rewrite forallb_forall in Hall.
  specialize (Hall (Z.to_nat x)). rewrite Z2Nat.id in Hall by lia.
  apply Z.eqb_eq, Hall, in_seq. lia.
Qed.

Lemma lor_low_surrogate x : 0 <= x < 1024 -> Z.lor 0xdc00 x = 0xdc00 + x.
Proof.
  intros Hx.
  assert (forallb (fun n => Z.lor 0xdc00 (Z.of_nat n) =? 0xdc00 + Z.of_nat n)
            (seq 0 1024) = true) as Hall by (vm_compute; reflexivity).
  rewrite forallb_forall in Hall.
  specialize (Hall (Z.to_nat x)). rewrite Z2Nat.id in Hall by lia.
  apply Z.eqb_eq, Hall, in_seq. lia.
Qed.

Ltac resolve_tests :=
  repeat match goal with
    | |- context [Z.eqb ?a ?b] =>
        let E := fresh in
        destruct (Z.eqb a b) eqn:E; [apply Z.eqb_eq in E; lia|clear E]
    | |- context [(?a <=? ?b) && (?c <=? ?d)] =>
        replace ((a <=? b) && (c <=? d)) with false
          by (symmetry; apply andb_false_iff; rewrite !Z.leb_gt; lia)
    | |- context [Z.ltb ?a ?b] =>
        let E := fresh in
        destruct (Z.ltb a b) eqn:E;
          [apply Z.ltb_lt in E|apply Z.ltb_ge in E]; try lia; clear E
    end.

Lemma escape_char_surrogate (c : N) :
  (55296 <= c <= 57343)%N ->
  Json.escape_char c = py "\u" ++ hex4 (Z.of_N c).
Proof.
  intros Hc. unfold Json.escape_char. cbv zeta. resolve_tests. reflexivity.
Qed.

(** [json.dumps] writes a character above the basic plane as the
    surrogate pair of its UTF-16 form, which is also what it writes
    for the two surrogates themselves. *)
Lemma escape_char_surrogate_pair (hi lo : N) :
  (55296 <= hi <= 56319)%N -> (56320 <= lo <= 57343)%N ->
  Json.escape_char (surrogate_pair_code_point hi lo)
  = Json.escape_char hi ++ Json.escape_char lo.
Proof.
  intros Hhi Hlo.
  rewrite (escape_char_surrogate hi), (escape_char_surrogate lo) by lia.
  unfold Json.escape_char. cbv zeta.
  set (n := Z.of_N (surrogate_pair_code_point hi lo)).
  assert (n = 65536 + (Z.of_N hi - 55296) * 1024 + (Z.of_N lo - 56320)) as Hn
    by (unfold n, surrogate_pair_code_point; lia).
  clearbody n. resolve_tests.
  assert (Z.shiftr (n - 65536) 10 = Z.of_N hi - 55296) as ->.
  { rewrite Z.shiftr_div_pow2 by lia. symmetry.
    apply (Z.div_unique _ _ _ (Z.of_N lo - 56320)); lia. }
  change 0x3ff with (Z.ones 10). rewrite !Z.land_ones by lia.
  rewrite Z.mod_small by lia.
  assert ((n - 65536) mod 2 ^ 10 = Z.of_N lo - 56320) as ->.
  { symmetry. apply (Z.mod_unique _ _ (Z.of_N hi - 55296)); lia. }
  rewrite lor_high_surrogate, lor_low_surrogate by lia.
  replace (0xd800 + (Z.of_N hi - 55296)) with (Z.of_N hi) by lia.
  replace (0xdc00 + (Z.of_N lo - 56320)) with (Z.of_N lo) by lia.
  by rewrite <- !app_assoc.
Qed.

Lemma encode_str_surrogate_pair (a b : pystr) (hi lo : N) :
  (55296 <= hi <= 56319)%N -> (56320 <= lo <= 57343)%N ->
  Json.encode_str (a ++ [surrogate_pair_code_point hi lo] ++ b)
  = Json.encode_str (a ++ [hi; lo] ++ b).
Proof.
  intros Hhi Hlo. unfold Json.encode_str. do 2 f_equal.
  rewrite !flat_map_app. f_equal. cbn [flat_map app].
  rewrite escape_char_surrogate_pair by done.
  by rewrite !app_nil_r, <- !app_assoc.
Qed.

(** Sorting by key and serializing do not look past the serialized
    values. *)
Lemma same_item_le p p' q q' :
  same_item p p' -> same_item q q' ->
  Json.item_le p q <-> Json.item_le p' q'.
Proof. intros [Hp _] [Hq _]. unfold Json.item_le. by rewrite Hp, Hq. Qed.

Lemma list_merge_same l1 l1' l2 l2' :
  Forall2 same_item l1 l1' -> Forall2 same_item l2 l2' ->
  Forall2 same_item (list_merge Json.item_le l1 l2)
    (list_merge Json.item_le l1' l2').
Proof.
  intros H1. revert l2 l2'.
  induction H1 as [|p p' l1 l1' Hp H1 IH1]; intros l2 l2' H2.
  { by rewrite !list_merge_nil_l. }
  induction H2 as [|q q' l2 l2' Hq H2 IH2].
  { rewrite !list_merge_nil_r. by constructor. }
  rewrite !list_merge_cons.
  pose proof (same_item_le p p' q q' Hp Hq) as Hle.
  destruct (decide (Json.item_le p q)), (decide (Json.item_le p' q'));
    try tauto.
  - constructor; [done|]. apply IH1. by constructor.
  - constructor; [done|]. apply IH2.
Qed.

Lemma merge_list_to_stack_same st st' l l' :
  same_stack st st' -> Forall2 same_item l l' ->
  same_stack (merge_list_to_stack Json.item_le st l)
    (merge_list_to_stack Json.item_le st' l').
Proof.
  intros Hst. revert l l'.
  induction Hst as [|o o' st st' Ho Hst IH]; intros l l' Hl; cbn.
  - repeat constructor. done.
  - destruct Ho as [l0 l0' Hl0|]; constructor; try done.
    + constructor.
    + apply IH. by apply list_merge_same.
    + by constructor.
Qed.

Lemma merge_stack_same st st' :
  same_stack st st' ->
  Forall2 same_item (merge_stack Json.item_le st)
    (merge_stack Json.item_le st').
Proof.
  induction 1 as [|o o' st st' Ho Hst IH]; cbn; [constructor|].
  destruct Ho; [by apply list_merge_same|done].
Qed.

Lemma merge_sort_aux_same st st' l l' :
  same_stack st st' -> Forall2 same_item l l' ->
  Forall2 same_item (merge_sort_aux Json.item_le st l)
    (merge_sort_aux Json.item_le st' l').
Proof.
  intros Hst Hl. revert st st' Hst.
  induction Hl as [|p p' l l' Hp Hl IH]; intros st st' Hst; cbn.
  - by apply merge_stack_same.
  - apply IH, merge_list_to_stack_same; [done|]. constructor; [done|constructor].
Qed.

Lemma dumps_sorted_same (d d' : pydict scalar) :
  Forall2 same_item d d' -> Json.dumps_sorted d = Json.dumps_sorted d'.
Proof.
  intros Hd. unfold Json.dumps_sorted.
  assert (Forall2 same_item (merge_sort Json.item_le d)
            (merge_sort Json.item_le d')) as Hsorted
    by (apply merge_sort_aux_same; [constructor|done]).
  assert (map Json.encode_item (merge_sort Json.item_le d)
          = map Json.encode_item (merge_sort Json.item_le d')) as ->;
    [|done].
  induction Hsorted as [|p p' l l' [Hk Hv] _ IH]; [done|].
  cbn [map]. rewrite IH. f_equal. unfold Json.encode_item.
  by rewrite Hk, Hv.
Qed.

Lemma same_items_refl (d : pydict scalar) : Forall2 same_item d d.
Proof. induction d; constructor; done. Qed.

Lemma dict_set_same (k : pystr) (v v' : scalar) (d : pydict scalar) :
  Json.encode_scalar v = Json.encode_scalar v' ->
  Forall2 same_item (dict_set k v d) (dict_set k v' d).
Proof.
  intros Hv. induction d as [|[k0 v0] d IH]; cbn [dict_set].
  - by repeat constructor.
  - destruct (decide (k = k0)).
    + constructor; [done|]. apply same_items_refl.
    + by constructor.
Qed.

Lemma dict_get_set_eq {V} (k : pystr) (v : V) (d : pydict V) :
  dict_get k (dict_set k v d) = Some v.
Proof.
  induction d as [|[k0 v0] d IH]; cbn [dict_set dict_get].
  - by rewrite decide_True.
  - destruct (decide (k = k0)) as [->|Hne]; cbn [dict_get].
    + by rewrite decide_True.
    + by rewrite decide_False.
Qed.

(** X20. The identity does not tell a character above the basic plane
    from its two surrogates: two documents whose metadata differ in
    one value only, where one has such a character and the other the
    surrogate pair of its UTF-16 form, have the same [stable_hash],
    although their metadata are different. *)
Theorem stable_hash_surrogate_pair (text text' : pystr)
    (m : pydict scalar) (key a b : pystr) (hi lo : N) :
  (55296 <= hi <= 56319)%N ->
  (56320 <= lo <= 57343)%N ->
  let joined := SStr (a ++ [surrogate_pair_code_point hi lo] ++ b) in
  let paired := SStr (a ++ [hi; lo] ++ b) in
  stable_hash (mkDocument text (dict_set key joined m))
  = stable_hash (mkDocument text' (dict_set key paired m))
  /\ dict_eqb (dict_set key joined m) (dict_set key paired m) = false.
Proof.
  intros Hhi Hlo joined paired. split.
  - unfold stable_hash. cbn [metadata]. do 2 f_equal.
    apply dumps_sorted_same, dict_set_same. cbn [Json.encode_scalar].
    by apply encode_str_surrogate_pair.
  - destruct (dict_eqb _ _) eqn:Heq; [|done]. exfalso.
    apply (dict_eqb_lookup _ _ key joined) in Heq;
      [|apply dict_get_Some_elem_of, dict_get_set_eq].
    rewrite dict_get_set_eq in Heq. injection Heq as Heq.
    apply app_inv_head in Heq. injection Heq as Hcp _.
    unfold surrogate_pair_code_point in Hcp. lia.
Qed.

(** *** REPLACE run twice, and the order of the found documents *)

Section Again.

Context `{Services}.
Local Open Scope indexer_scope.

Lemma replace_selection_sourced (c : gmap pystr Entry)
    (found : list Document) :
  sourced_entries c -> sourced_docs found ->
  exists selected,
    replace_selection c found = Ok selected
    /\ map fst selected = replaced_ids found c.
Proof.
  intros Hc Hfound. unfold replace_selection, replaced_ids.
  rewrite response_sources_Ok by done. cbn [rbind].
  eexists. split; [|reflexivity].
  apply rfilter_Ok, Forall_forall. intros [id m] Hin.
  apply elem_of_response_of in Hin as [e [He <-]]. cbn [snd].
  rewrite (has_str_source_Ok _ (Hc id e He)).
  by rewrite doc_sources_Ok.
Qed.

(** The entry an upsert leaves under an id of the batch does not
    depend on what was there before. *)
Lemma upsert_lookup_batch (c c' : gmap pystr Entry) batch id d :
  (id, d) ∈ batch -> upsert c batch !! id = upsert c' batch !! id.
Proof.
  revert c c' d. induction batch as [|[i d0] batch IH]; intros c c' d Hin.
  { by apply elem_of_nil in Hin. }
  cbn [upsert fold_left fst snd].
  change (fold_left _ batch ?c0) with (upsert c0 batch).
  destruct (upsert_lookup (<[i:=entry_of d0]> c) batch id)
    as [[Hsame Hnot]|[d' [Hd' _]]].
  - apply elem_of_cons in Hin as [[= -> ->]|Hin]; [|by destruct (Hnot d)].
    destruct (upsert_lookup (<[i:=entry_of d0]> c') batch i)
      as [[Hsame' _]|[d' [Hd' _]]]; [|by destruct (Hnot d')].
    by rewrite Hsame, Hsame', !lookup_insert_eq.
  - by apply (IH _ _ d').
Qed.

Lemma outcome_replace_twice (c : gmap pystr Entry) (found : list Document) :
  sourced_entries c -> sourced_docs found ->
  (outcome REPLACE (outcome REPLACE c found).2 found).2
  = (outcome REPLACE c found).2.
Proof.
  intros Hc Hfound. unfold outcome at 2 3.
  destruct (replace_selection_sourced c found Hc Hfound)
    as (selected & -> & Hids).
  cbn [snd]. rewrite Hids.
  set (c1 := upsert _ _).
  assert (sourced_entries c1) as Hc1.
  { apply sourced_entries_upsert; [by apply sourced_entries_delete|].
    by apply chunks_sourced. }
  unfold outcome.
  destruct (replace_selection_sourced c1 found Hc1 Hfound)
    as (selected1 & -> & Hids1).
  cbn [snd]. rewrite Hids1. apply map_eq. intros id.
  destruct (upsert_lookup
              (foldr delete c (replaced_ids found c))
              (identified (chunks found)) id) as [[Hsame Hnot]|[d [Hd _]]].
  - destruct (upsert_lookup
                (foldr delete c1 (replaced_ids found c1))
                (identified (chunks found)) id) as [[-> _]|[d [Hd _]]];
      [|by destruct (Hnot d)].
    rewrite lookup_foldr_delete_ids.
    case_decide as Hin; [|done]. exfalso.
    apply elem_of_replaced_ids in Hin as (e & doc & He & Hdoc & Hsrc).
    unfold c1 in He. rewrite Hsame, lookup_foldr_delete_ids in He.
    case_decide as Hin; [done|]. apply Hin, elem_of_replaced_ids. eauto.
  - by apply (upsert_lookup_batch _ _ _ _ d).
Qed.

(** X21. Indexing under REPLACE is idempotent: with sourced entries
    and documents, a second REPLACE run on the same documents, with
    the same [exist_ok], leaves every entry of the index as the first
    run left it. *)
Theorem create_db_replace_idempotent (found : list Document)
    (exist_ok : bool) (st : Chroma) :
  sourced_entries (entries st) ->
  sourced_docs found ->
  let st1 := (create_db found exist_ok REPLACE st).1.2 in
  let st2 := (create_db found exist_ok REPLACE st1).1.2 in
  entries st2 = entries st1.
Proof.
  intros Hst Hfound st1 st2. unfold st2. rewrite create_db_entries.
  destruct (gate_closed exist_ok st1) eqn:Hgate1; [done|].
  unfold st1 in *. rewrite create_db_entries.
  destruct (gate_closed exist_ok st) eqn:Hgate.
  - rewrite create_db_closed_outcome in Hgate1 by done.
    cbn [fst snd] in Hgate1. congruence.
  - by apply outcome_replace_twice.
Qed.

Lemma remove_dups_Permutation (l l' : list pystr) :
  l ≡ₚ l' -> remove_dups l ≡ₚ remove_dups l'.
Proof.
  intros Hl. apply NoDup_Permutation; [apply NoDup_remove_dups..|].
  intros s. by rewrite !elem_of_remove_dups, Hl.
Qed.

Lemma sorted_set_Permutation (l l' : list pystr) :
  l ≡ₚ l' -> sorted_set l = sorted_set l'.
Proof.
  intros Hl. unfold sorted_set.
  apply (Sorted_unique str_le); [apply Sorted_merge_sort, _..|].
  by rewrite !merge_sort_Permutation, (remove_dups_Permutation l l').
Qed.

Lemma fail_matches_Permutation (c : gmap pystr Entry)
    (found found' : list Document) :
  found ≡ₚ found' -> sourced_docs found ->
  match fail_matches c found, fail_matches c found' with
  | Ok matches, Ok matches' => matches ≡ₚ matches'
  | Raise e, Raise e' => e = e'
  | _, _ => False
  end.
Proof.
  intros Hperm Hfound.
  assert (sourced_docs found') as Hfound'.
  { unfold sourced_docs in *. by rewrite <- Hperm. }
  unfold fail_matches.
  destruct (rmap _ (response_of c)) as [sources|]; [|done].
  cbn [rbind]. rewrite !doc_sources_Ok by done. cbn [rbind].
  apply filter_Permutation, remove_dups_Permutation.
  change (map ?f found) with (f <$> found).
  change (map ?f found') with (f <$> found'). by rewrite Hperm.
Qed.

(** X22. What FAIL answers does not depend on the order in which the
    loader finds the documents: for two orders of the same sourced
    documents the run succeeds in both or raises the same error, with
    the same message (the offending sources are listed sorted). *)
Theorem create_db_fail_order (found found' : list Document)
    (exist_ok : bool) (st : Chroma) :
  found ≡ₚ found' ->
  sourced_docs found ->
  (create_db found exist_ok FAIL st).1.1
  = (create_db found' exist_ok FAIL st).1.1.
Proof.
  intros Hperm Hfound.
  destruct (gate_closed exist_ok st) eqn:Hgate.
  { by rewrite !create_db_closed_outcome. }
  rewrite !create_db_result_open by done. unfold outcome.
  pose proof (fail_matches_Permutation (entries st) found found' Hperm Hfound)
    as Hmatches.
  destruct (fail_matches (entries st) found) as [matches|e],
    (fail_matches (entries st) found') as [matches'|e']; try done;
    [|by subst].
  destruct matches as [|s matches], matches' as [|s' matches']; cbn [fst].
  - done.
  - by apply Permutation_nil_cons in Hmatches.
  - symmetry in Hmatches. by apply Permutation_nil_cons in Hmatches.
  - unfold already_indexed_message.
    by rewrite (sorted_set_Permutation _ _ Hmatches).
Qed.

End Again.

(** ** The further properties on the examples *)

Lemma create_db_ignore_idempotent_witness :
  dom (entries
         (create_db [doc_html; other_html] true IGNORE
            (create_db [doc_html; other_html] true IGNORE store_with_doc).1.2).1.2)
  = dom (entries
           (create_db [doc_html; other_html] true IGNORE store_with_doc).1.2)
  /\ size (entries
             (create_db [doc_html; other_html] true IGNORE
                (create_db [doc_html; other_html] true IGNORE
                   store_with_doc).1.2).1.2)
     = size (entries
               (create_db [doc_html; other_html] true IGNORE
                  store_with_doc).1.2).
Proof.
  apply (create_db_ignore_idempotent [doc_html; other_html] true
           store_with_doc).
  vm_compute. reflexivity.
Defined.


Lemma store_with_doc_first_chunk :
  entries store_with_doc !! stable_hash chunk_doc_html
  = Some (entry_of chunk_doc_html).
Proof. vm_compute. reflexivity. Defined.

Lemma chunks_other_html : chunks [other_html] = [chunk_other_html].
Proof. vm_compute. reflexivity. Defined.

Lemma create_db_writes_chunks_witness :
  entries store_with_doc !! stable_hash chunk_other_html
  = Some (entry_of chunk_other_html)
  \/ exists chunk,
       chunk ∈ chunks [other_html]
       /\ stable_hash chunk_other_html = stable_hash chunk
       /\ entry_of chunk_other_html = entry_of chunk.
Proof.
  apply (create_db_writes_chunks [other_html] true IGNORE store_with_doc).
  vm_compute. reflexivity.
Defined.

Lemma create_db_ignore_fail_keep_witness :
  stable_hash chunk_doc_html
    ∈ dom (entries (create_db [other_html] true IGNORE store_with_doc).1.2)
  /\ ((forall chunk, chunk ∈ chunks [other_html] ->
         stable_hash chunk <> stable_hash chunk_doc_html) ->
      entries (create_db [other_html] true IGNORE store_with_doc).1.2
        !! stable_hash chunk_doc_html
      = Some (entry_of chunk_doc_html)).
Proof.
  apply (create_db_ignore_fail_keep [other_html] true IGNORE store_with_doc).
  - discriminate.
  - exact store_with_doc_first_chunk.
Defined.

Lemma create_db_replace_keeps_others_witness :
  entries (create_db [other_html] true REPLACE store_with_doc).1.2
    !! stable_hash chunk_doc_html
  = Some (entry_of chunk_doc_html).
Proof.
  apply (create_db_replace_keeps_others [other_html] true store_with_doc).
  - exact store_with_doc_first_chunk.
  - intros doc Hdoc. apply list_elem_of_singleton in Hdoc. subst doc.
    vm_compute. discriminate.
  - intros chunk Hchunk. rewrite chunks_other_html in Hchunk.
    apply list_elem_of_singleton in Hchunk. subst chunk.
    vm_compute. discriminate.
Defined.

Lemma store_with_doc_content_addressed :
  content_addressed (entries store_with_doc).
Proof. apply (bool_decide_unpack _). vm_compute. reflexivity. Defined.

Lemma create_db_content_addressed_witness :
  content_addressed
    (entries (create_db [doc_html_edited; other_html] true REPLACE
                store_with_doc).1.2).
Proof.
  apply (create_db_content_addressed [doc_html_edited; other_html] true
           REPLACE store_with_doc).
  exact store_with_doc_content_addressed.
Defined.

Lemma create_db_sourced_witness :
  sourced_entries
    (entries (create_db [doc_html_edited; other_html] true REPLACE
                store_with_doc).1.2).
Proof.
  apply (create_db_sourced [doc_html_edited; other_html] true REPLACE
           store_with_doc).
  - exact store_with_doc_sourced.
  - repeat constructor.
Defined.

Lemma create_db_fail_is_ignore_witness :
  create_db [doc_html; other_html] false FAIL None
  = create_db [doc_html; other_html] false IGNORE None.
Proof.
  apply (create_db_fail_is_ignore [doc_html; other_html] false None).
  intros s [_ [id [e [He _]]]]. unfold entries in He.
  by rewrite lookup_empty in He.
Defined.


Lemma create_db_replace_empty_index_witness :
  ((create_db [doc_unsourced] false REPLACE None).1.1 = Ok tt
   /\ entries (create_db [doc_unsourced] false REPLACE None).1.2
      = upsert ∅ (identified (chunks [doc_unsourced])))
  /\ (~ sourced_docs [doc_unsourced] ->
      forall on_match, on_match <> REPLACE ->
        (exists e, (create_db [doc_unsourced] false on_match None).1.1 = Raise e)
        /\ entries (create_db [doc_unsourced] false on_match None).1.2 = ∅).
Proof.
  apply (create_db_replace_empty_index [doc_unsourced] false None).
  - reflexivity.
  - reflexivity.
Defined.

(** The document without a source, on an empty index, policy by
    policy. *)
Example create_db_unsourced_by_policy :
  (create_db [doc_unsourced] true REPLACE None).1.1 = Ok tt
  /\ (create_db [doc_unsourced] true IGNORE None).1.1
     = Raise (KeyError (py "source"))
  /\ (create_db [doc_unsourced] true FAIL None).1.1
     = Raise (KeyError (py "source")).
Proof. repeat split; vm_compute; reflexivity. Qed.

Lemma model_factories_same_provider_witness :
  exists chat,
    get_chat_model (mkEnviron (Some (py "azure")) true) (py "gpt-4") None
    = Ok chat
    /\ chat_provider chat
       = embeddings_provider (AzureOpenAIEmbeddings (py "text-embedding-ada-002"))
    /\ chat_temperature chat = py "0.0".
Proof.
  apply (model_factories_same_provider (mkEnviron (Some (py "azure")) true)
           (py "text-embedding-ada-002") (py "gpt-4") None).
  vm_compute. reflexivity.
Defined.

Lemma get_retriever_search_kwargs_witness :
  dict_get (py "k") [(py "k", KInt 4); (py "fetch_k", @KInt nat 20)]
  = KInt <$> Some 4
  /\ dict_get (py "score_threshold")
       [(py "k", KInt 4); (py "fetch_k", @KInt nat 20)]
     = KFloat <$> applicable (bool_decide (mmr = similarity_score_threshold))
                    (Some 7%nat)
  /\ dict_get (py "fetch_k") [(py "k", KInt 4); (py "fetch_k", @KInt nat 20)]
     = KInt <$> applicable (bool_decide (mmr = mmr)) (Some 20)
  /\ dict_get (py "lambda_mult")
       [(py "k", KInt 4); (py "fetch_k", @KInt nat 20)]
     = KFloat <$> applicable (bool_decide (mmr = mmr)) None
  /\ dict_wf [(py "k", KInt 4); (py "fetch_k", @KInt nat 20)]
  /\ forall key,
      key ∈ map fst [(py "k", KInt 4); (py "fetch_k", @KInt nat 20)] ->
      key ∈ [py "k"; py "score_threshold"; py "fetch_k"; py "lambda_mult"].
Proof.
  apply (get_retriever_search_kwargs tt (Some 4) mmr (Some 7%nat) (Some 20)
           None
           (mkRetriever tt mmr [(py "k", KInt 4); (py "fetch_k", KInt 20)])).
  reflexivity.
Defined.

Lemma format_docs_app_witness :
  format_docs [] = Ok []
  /\ format_docs ([doc_front] ++ [doc_back])
     = Ok (spec_entry doc_front ++ [10%N; 10%N] ++ spec_entry doc_back).
Proof.
  apply (format_docs_app [doc_front] [doc_back]); reflexivity.
Defined.

Lemma stable_hash_surrogate_pair_witness :
  stable_hash
    (mkDocument (py "one")
       (dict_set (py "source")
          (SStr (py "a" ++ [surrogate_pair_code_point 55357 56832] ++ py ".html"))
          []))
  = stable_hash
      (mkDocument (py "two")
         (dict_set (py "source")
            (SStr (py "a" ++ [55357%N; 56832%N] ++ py ".html")) []))
  /\ dict_eqb
       (dict_set (py "source")
          (SStr (py "a" ++ [surrogate_pair_code_point 55357 56832] ++ py ".html"))
          [])
       (dict_set (py "source")
          (SStr (py "a" ++ [55357%N; 56832%N] ++ py ".html")) [])
     = false.
Proof.
  apply (stable_hash_surrogate_pair (py "one") (py "two") [] (py "source")
           (py "a") (py ".html") 55357 56832); lia.
Defined.

(** The pair D83D DE00 is the character 1F600. *)
Example surrogate_pair_1F600 : surrogate_pair_code_point 55357 56832 = 128512%N.
Proof. reflexivity. Qed.

Lemma create_db_replace_idempotent_witness :
  entries
    (create_db [doc_html_edited; other_html] true REPLACE
       (create_db [doc_html_edited; other_html] true REPLACE
          store_with_doc).1.2).1.2
  = entries
      (create_db [doc_html_edited; other_html] true REPLACE store_with_doc).1.2.
Proof.
  apply (create_db_replace_idempotent [doc_html_edited; other_html] true
           store_with_doc).
  - exact store_with_doc_sourced.
  - repeat constructor.
Defined.

Lemma create_db_fail_order_witness :
  (create_db [doc_html; other_html] true FAIL store_with_doc).1.1
  = (create_db [other_html; doc_html] true FAIL store_with_doc).1.1.
Proof.
  apply (create_db_fail_order [doc_html; other_html] [other_html; doc_html]
           true store_with_doc).
  - apply perm_swap.
  - repeat constructor.
Defined.
